(** * exam-hub-online: the exam-taking engine, the exam editor and sign-up

  A shallow embedding of [TakeExam], [ExamEditor] and [useAuth.signUp]
  together with the row-level policies of the migration they run
  against, followed by the properties of the design document that can
  be settled on it.

  Conventions.
  - React state is a record; a handler is a function on it.  An [async]
    handler is cut at each [await]: the part before the first [await]
    is one function, each continuation another, and the suspended
    invocations are kept in the world.
  - The store (Supabase) answers every request with either data or an
    error; which of the two is an input of the model.  A rejected write
    changes no table.
  - JavaScript numbers are IEEE-754 doubles; [JsNumber] gives the
    division, the multiplication and [Math.round] of the score
    computation with the rounding of doubles. *)

From Stdlib Require Import ZArith QArith Qround Qpower Lqa Lia List Ascii String.
From Stdlib Require Import Floats.PrimFloat Floats.FloatOps Floats.SpecFloat Uint63.
From stdpp Require Import gmap strings list pretty.

Local Open Scope Z_scope.

(** ** JavaScript numbers *)

Module JsNumber.

(** [2 ^ e] for any integer exponent. *)
Definition pow2 (e : Z) : Q := (2 ^ e)%Q.

(** Nearest integer, ties to the even one. *)
Definition rne (t : Q) : Z :=
  let f := Qfloor t in
  match (t - inject_Z f ?= 1 # 2)%Q with
  | Lt => f
  | Gt => f + 1
  | Eq => if Z.even f then f else f + 1
  end.

(** The [k] with [2^k <= x < 2^(k+1)], for [x > 0]. *)
Definition binade (x : Q) : Z :=
  let k := Z.log2 (Qnum x) - Z.log2 (Zpos (Qden x)) in
  if Qle_bool (pow2 k) x then k else k - 1.

(** The double nearest to the real [x >= 0] (53 significant bits,
    round to nearest, ties to even).  Subnormal results and overflow
    are outside the range the engine reaches. *)
Definition round53 (x : Q) : Q :=
  if Qle_bool x 0 then 0%Q
  else let e := binade x - 52 in
       Qred (inject_Z (rne (x / pow2 e)) * pow2 e).

(** A non-negative JavaScript number. *)
Inductive number := NaN | Infinity | Num (q : Q).

(** An integer below [2^53] is a double; array lengths and counters
    are below [2^32]. *)
Definition of_Z (z : Z) : number := Num (inject_Z z).

(** [a / b] *)
Definition div (a b : number) : number :=
  match a, b with
  | Num x, Num y =>
      if Qeq_bool y 0 then (if Qeq_bool x 0 then NaN else Infinity)
      else Num (round53 (x / y))
  | Num _, Infinity => Num 0
  | Infinity, Num _ => Infinity
  | _, _ => NaN
  end.

(** [a * b] *)
Definition mul (a b : number) : number :=
  match a, b with
  | Num x, Num y => Num (round53 (x * y))
  | Infinity, Num y | Num y, Infinity =>
      if Qeq_bool y 0 then NaN else Infinity
  | Infinity, Infinity => Infinity
  | _, _ => NaN
  end.

(** [Math.round(a)]: the nearest integer, a half goes up. *)
Definition Math_round (a : number) : number :=
  match a with
  | Num x => Num (inject_Z (Qfloor (x + (1 # 2))))
  | other => other
  end.

Definition same (a b : number) : bool :=
  match a, b with
  | Num x, Num y => Qeq_bool x y
  | NaN, NaN | Infinity, Infinity => true
  | _, _ => false
  end.

(** The same two operations on the machine's doubles, read back as
    rationals; used to check [div] and [mul] against the hardware. *)
Definition of_spec (f : spec_float) : number :=
  match f with
  | S754_zero _ => Num 0
  | S754_infinity _ => Infinity
  | S754_nan => NaN
  | S754_finite _ m e => Num (Qred (inject_Z (Zpos m) * pow2 e))
  end.

Definition machine_of_Z (z : Z) : float := of_uint63 (Uint63.of_Z z).

Definition machine_div (c n : Z) : number :=
  of_spec (Prim2SF (PrimFloat.div (machine_of_Z c) (machine_of_Z n))).

Definition machine_percent (c n : Z) : number :=
  of_spec (Prim2SF (PrimFloat.mul
                      (PrimFloat.div (machine_of_Z c) (machine_of_Z n))
                      (machine_of_Z 100))).

(** Whether the model and the machine give the same doubles for
    [c / n] and [(c / n) * 100]. *)
Definition agrees_at (c n : Z) : bool :=
  same (div (of_Z c) (of_Z n)) (machine_div c n)
  && same (mul (div (of_Z c) (of_Z n)) (of_Z 100)) (machine_percent c n).

(** The same for every [0 <= c <= n < bound]. *)
Definition agrees_below (bound : nat) : bool :=
  forallb (fun n =>
    forallb (fun c => agrees_at (Z.of_nat c) (Z.of_nat n)) (seq 0 (S n)))
  (seq 0 bound).

(** Larger counts, up to the longest array there can be. *)
Definition large_counts : list (Z * Z) :=
  [(29, 200); (57, 200); (113, 200); (999, 1000); (1, 3000);
   (123456, 654321); (65535, 65536); (1, 4294967295);
   (2147483647, 4294967295); (4294967294, 4294967295);
   (3006477107, 4294967295)].

(** The unit roundoff of a double. *)
Definition eps : Q := pow2 (-53).

(** The double [(c / n) * 100] and the integer [Math.round] makes of it. *)
Definition percent (c n : Z) : Q :=
  round53 (round53 (inject_Z c / inject_Z n) * inject_Z 100).

Definition score_int (c n : Z) : Z := Qfloor (percent c n + (1 # 2)).

End JsNumber.

(** ** The exam-taking engine ([TakeExam]) *)

Module TakeExam.
Import JsNumber.

Module Question.
Record t := {
  id : string;
  question_text : string;
  option_a : string;
  option_b : string;
  option_c : string;
  option_d : string;
  correct_option : string;
  order_index : Z;
}.
End Question.

Module Exam.
Record t := {
  id : string;
  title : string;
  description : option string;
  category : string;
  duration_minutes : Z;
}.
End Exam.

(** The object inserted into [exam_results]; the store adds [id]. *)
Module ExamResult.
Record t := {
  user_id : string;
  exam_id : string;
  score : number;
  total_questions : Z;
  correct_answers : Z;
  time_taken_seconds : Z;
}.
End ExamResult.

(** One object of the batch inserted into [student_answers]. *)
Module StudentAnswer.
Record t := {
  result_id : string;
  question_id : string;
  selected_option : option string;   (* [None] is [null] *)
  is_correct : bool;
}.
End StudentAnswer.

Record Database := {
  exam_results : list (string * ExamResult.t);   (* id, row *)
  student_answers : list StudentAnswer.t;
}.

(** The values one render of the component binds: [user] from
    [useAuth], the rest from [useState].  A closure created in a
    render ([submitExam], the interval callback) sees these values
    and no later ones. *)
Record State := {
  user : option string;               (* [user.id] *)
  exam : option Exam.t;
  questions : list Question.t;
  currentIndex : Z;
  answers : gmap string string;       (* [Record<string, string>], keyed by question id (a UUID) *)
  timeLeft : Z;
  loading : bool;
  submitting : bool;
  showSubmitDialog : bool;
  startTime : Z;
}.

Inductive Toast :=
| success (message : string)
| error (message : string)
| warning (message : string).

(** The answer of the store to a request. *)
Inductive Response :=
| Data (id : string)      (* [{ data, error: null }] *)
| Error.                  (* [{ data: null, error }] *)

(** A [submitExam] invocation suspended at one of its two [await]s. *)
Inductive Pending :=
| AwaitResult (closure : State) (row : ExamResult.t)
| AwaitAnswers (closure : State) (result_id : string)
               (rows : list StudentAnswer.t).

Record World := {
  state : State;
  mounted : bool;
  interval : option State;   (* the armed [setInterval], with the render it closes over *)
  inflight : list Pending;
  db : Database;
  toasts : list Toast;
  navigated : list string;
}.

(** *** State setters *)

Definition setCurrentIndex (i : Z) (s : State) : State :=
  {| user := user s; exam := exam s; questions := questions s;
     currentIndex := i; answers := answers s; timeLeft := timeLeft s;
     loading := loading s; submitting := submitting s;
     showSubmitDialog := showSubmitDialog s; startTime := startTime s |}.

Definition setAnswers (a : gmap string string) (s : State) : State :=
  {| user := user s; exam := exam s; questions := questions s;
     currentIndex := currentIndex s; answers := a; timeLeft := timeLeft s;
     loading := loading s; submitting := submitting s;
     showSubmitDialog := showSubmitDialog s; startTime := startTime s |}.

Definition setTimeLeft (t : Z) (s : State) : State :=
  {| user := user s; exam := exam s; questions := questions s;
     currentIndex := currentIndex s; answers := answers s; timeLeft := t;
     loading := loading s; submitting := submitting s;
     showSubmitDialog := showSubmitDialog s; startTime := startTime s |}.

Definition setSubmitting (b : bool) (s : State) : State :=
  {| user := user s; exam := exam s; questions := questions s;
     currentIndex := currentIndex s; answers := answers s;
     timeLeft := timeLeft s; loading := loading s; submitting := b;
     showSubmitDialog := showSubmitDialog s; startTime := startTime s |}.

Definition setShowSubmitDialog (b : bool) (s : State) : State :=
  {| user := user s; exam := exam s; questions := questions s;
     currentIndex := currentIndex s; answers := answers s;
     timeLeft := timeLeft s; loading := loading s;
     submitting := submitting s; showSubmitDialog := b;
     startTime := startTime s |}.

(** [setExam(examData); setQuestions(questionsData || []);
    setTimeLeft(examData.duration_minutes * 60)] and, in [finally],
    [setLoading(false)]. *)
Definition setLoaded (e : Exam.t) (qs : list Question.t) (s : State) : State :=
  {| user := user s; exam := Some e; questions := qs;
     currentIndex := currentIndex s; answers := answers s;
     timeLeft := Exam.duration_minutes e * 60; loading := false;
     submitting := submitting s; showSubmitDialog := showSubmitDialog s;
     startTime := startTime s |}.

Definition update (f : State -> State) (w : World) : World :=
  {| state := f (state w); mounted := mounted w; interval := interval w;
     inflight := inflight w; db := db w; toasts := toasts w;
     navigated := navigated w |}.

Definition toast (t : Toast) (w : World) : World :=
  {| state := state w; mounted := mounted w; interval := interval w;
     inflight := inflight w; db := db w; toasts := toasts w ++ [t];
     navigated := navigated w |}.

Definition await (p : Pending) (w : World) : World :=
  {| state := state w; mounted := mounted w; interval := interval w;
     inflight := inflight w ++ [p]; db := db w; toasts := toasts w;
     navigated := navigated w |}.

Definition clearInterval (w : World) : World :=
  {| state := state w; mounted := mounted w; interval := None;
     inflight := inflight w; db := db w; toasts := toasts w;
     navigated := navigated w |}.

(** Leaving the route unmounts the component; the cleanup of the
    timer effect runs. *)
Definition unmount (w : World) : World :=
  {| state := state w; mounted := false; interval := None;
     inflight := inflight w; db := db w; toasts := toasts w;
     navigated := navigated w |}.

(** [navigate(path)]: the result page is another route. *)
Definition navigate (path : string) (w : World) : World :=
  unmount
    {| state := state w; mounted := mounted w; interval := interval w;
       inflight := inflight w; db := db w; toasts := toasts w;
       navigated := navigated w ++ [path] |}.

(** *** The timer effect

    [useEffect(() => { if (timeLeft <= 0) return; const timer =
    setInterval(..., 1000); return () => clearInterval(timer); },
    [timeLeft])]: after a render in which [timeLeft] changed the old
    interval is cleared and, when [timeLeft > 0], a new one is armed
    whose callback closes over that render ([handleAutoSubmit] is
    memoised on [answers] and [questions], which are those of the
    render as well). *)
Definition timerEffect (w : World) : World :=
  {| state := state w; mounted := mounted w;
     interval := if timeLeft (state w) <=? 0 then None else Some (state w);
     inflight := inflight w; db := db w; toasts := toasts w;
     navigated := navigated w |}.

(** *** Handlers *)

Definition selectAnswer (questionId option : string) (w : World) : World :=
  update (fun s => setAnswers (<[questionId := option]> (answers s)) s) w.

Definition goToQuestion (index : Z) (w : World) : World :=
  if (0 <=? index) && (index <? Z.of_nat (length (questions (state w))))
  then update (setCurrentIndex index) w
  else w.

(** [answers[q.id] === q.correct_option]; a missing key reads
    [undefined], which is no string. *)
Definition answered_correctly (a : gmap string string) (q : Question.t) : bool :=
  bool_decide (a !! Question.id q = Some (Question.correct_option q)).

(** [let correctCount = 0; questions.forEach((q) => { if (...) correctCount++; })] *)
Definition correctCount (qs : list Question.t) (a : gmap string string) : Z :=
  fold_left (fun n q => if answered_correctly a q then n + 1 else n) qs 0.

(** [Math.round((correctCount / questions.length) * 100)] *)
Definition score_of (correct len : Z) : number :=
  Math_round (mul (div (of_Z correct) (of_Z len)) (of_Z 100)).

(** [v || null]: [undefined] and the empty string are falsy. *)
Definition or_null (v : option string) : option string :=
  match v with
  | Some s => if bool_decide (s = ""%string) then None else Some s
  | None => None
  end.

(** The object passed to [from('exam_results').insert]. *)
Definition attempt (now : Z) (u : string) (e : Exam.t) (cl : State) : ExamResult.t :=
  let timeTaken := (now - startTime cl) / 1000 in
  let correct := correctCount (questions cl) (answers cl) in
  let len := Z.of_nat (length (questions cl)) in
  {| ExamResult.user_id := u;
     ExamResult.exam_id := Exam.id e;
     ExamResult.score := score_of correct len;
     ExamResult.total_questions := len;
     ExamResult.correct_answers := correct;
     ExamResult.time_taken_seconds := timeTaken |}.

(** [questions.map((q) => ({ result_id: result.id, question_id: q.id,
    selected_option: answers[q.id] || null,
    is_correct: answers[q.id] === q.correct_option }))] *)
Definition answersToInsert (result_id : string) (cl : State) : list StudentAnswer.t :=
  map (fun q =>
         {| StudentAnswer.result_id := result_id;
            StudentAnswer.question_id := Question.id q;
            StudentAnswer.selected_option := or_null (answers cl !! Question.id q);
            StudentAnswer.is_correct := answered_correctly (answers cl) q |})
      (questions cl).

(** [submitExam], up to its first [await]; [cl] is the render the
    invoked closure belongs to and [now] what [Date.now()] returns. *)
Definition submitExam (now : Z) (cl : State) (w : World) : World :=
  match user cl, exam cl with
  | Some u, Some e =>
      await (AwaitResult cl (attempt now u e cl))
            (update (setSubmitting true) w)
  | _, _ => w
  end.

(** The rest of [submitExam], resumed with the answer of the store. *)
Definition resume (p : Pending) (r : Response) (w : World) : World :=
  match p with
  | AwaitResult cl _ =>
      match r with
      | Error =>
          (* [throw resultError], [catch], [finally] *)
          update (setSubmitting false) (toast (error "Failed to submit exam") w)
      | Data id =>
          await (AwaitAnswers cl id (answersToInsert id cl)) w
      end
  | AwaitAnswers _ id _ =>
      (* the answer of the second insert is not looked at *)
      update (setSubmitting false)
        (navigate ("/student/result/" +:+ id)
           (toast (success "Exam submitted successfully!") w))
  end.

(** What the store does with the request: an accepted insert appends,
    a rejected one writes nothing. *)
Definition commit (p : Pending) (r : Response) (d : Database) : Database :=
  match p, r with
  | AwaitResult _ row, Data id =>
      {| exam_results := exam_results d ++ [(id, row)];
         student_answers := student_answers d |}
  | AwaitAnswers _ _ rows, Data _ =>
      {| exam_results := exam_results d;
         student_answers := student_answers d ++ rows |}
  | _, Error => d
  end.

Definition respond (i : nat) (r : Response) (w : World) : World :=
  match inflight w !! i with
  | None => w
  | Some p =>
      resume p r
        {| state := state w; mounted := mounted w; interval := interval w;
           inflight := delete i (inflight w); db := commit p r (db w);
           toasts := toasts w; navigated := navigated w |}
  end.

(** [toast.warning('Time is up! ...'); await submitExam()] *)
Definition handleAutoSubmit (now : Z) (cl : State) (w : World) : World :=
  submitExam now cl (toast (warning "Time is up! Submitting your answers...") w).

(** The interval fires: [setTimeLeft((prev) => { if (prev <= 1) {
    clearInterval(timer); handleAutoSubmit(); return 0; } return prev - 1; })],
    then the timer effect of the next render.  [prev] is the current
    state, [handleAutoSubmit] the one the callback closed over; the
    updater runs once per firing, and the render it causes is over
    before the interval could fire again. *)
Definition tick (now : Z) (w : World) : World :=
  match interval w with
  | None => w
  | Some cl =>
      let prev := timeLeft (state w) in
      if prev <=? 1
      then timerEffect
             (update (setTimeLeft 0) (handleAutoSubmit now cl (clearInterval w)))
      else timerEffect (update (setTimeLeft (prev - 1)) w)
  end.

(** The page is rendered once loading is over, the exam is there and
    it has questions. *)
Definition visible (w : World) : bool :=
  mounted w && negb (loading (state w))
  && bool_decide (is_Some (exam (state w)))
  && negb (bool_decide (questions (state w) = [])).

(** The footer shows Submit on the last question. *)
Definition canOpenDialog (w : World) : bool :=
  visible w
  && (currentIndex (state w) =? Z.of_nat (length (questions (state w))) - 1).

(** The dialog action carries [disabled={submitting}]. *)
Definition canClickSubmit (w : World) : bool :=
  visible w && showSubmitDialog (state w) && negb (submitting (state w)).

(** What can happen to a mounted page.  [now] is the reading of
    [Date.now()] at the event. *)
Inductive Event :=
| Loaded (e : Exam.t) (qs : list Question.t)   (* [fetchExam] got both rows *)
| Tick (now : Z)                               (* the interval fires *)
| SelectAnswer (questionId option : string)    (* an option button *)
| GoToQuestion (index : Z)                     (* navigator, Previous, Next *)
| OpenDialog                                   (* Submit in the footer *)
| ClickSubmit (now : Z)                        (* Submit Exam in the dialog *)
| Respond (i : nat) (r : Response)             (* the store answers request [i] *)
| Unmount.                                     (* the student leaves the route *)

(** One event.  An event the page does not offer changes nothing.
    [fetchExam] runs once, for the exam of the route; the dialog action
    closes the dialog it sits in. *)
Definition step (w : World) (ev : Event) : World :=
  match ev with
  | Loaded e qs =>
      if mounted w && loading (state w)
      then timerEffect (update (setLoaded e qs) w)
      else w
  | Tick now => tick now w
  | SelectAnswer q o => if visible w then selectAnswer q o w else w
  | GoToQuestion i => if visible w then goToQuestion i w else w
  | OpenDialog =>
      if canOpenDialog w then update (setShowSubmitDialog true) w else w
  | ClickSubmit now =>
      if canClickSubmit w
      then submitExam now (state w) (update (setShowSubmitDialog false) w)
      else w
  | Respond i r => respond i r w
  | Unmount => unmount w
  end.

Definition run (w : World) (evs : list Event) : World := fold_left step evs w.

(** The component as mounted: [useState] initial values. *)
Definition mount (u : option string) (now : Z) (d : Database) : World :=
  {| state := {| user := u; exam := None; questions := []; currentIndex := 0;
                 answers := ∅; timeLeft := 0; loading := true;
                 submitting := false; showSubmitDialog := false;
                 startTime := now |};
     mounted := true; interval := None; inflight := []; db := d;
     toasts := []; navigated := [] |}.

(** The design document's [round(100 × correctAnswers / totalQuestions)]:
    the quotient taken exactly, a half going up. *)
Definition exact_score (correct total : Z) : Z :=
  (200 * correct + total) / (2 * total).

(** [100 × correct / total] lies exactly halfway between two integers. *)
Definition halfway (correct total : Z) : Prop :=
  exists k : Z, 200 * correct = (2 * k + 1) * total.

Definition is_warning (t : Toast) : bool :=
  match t with warning _ => true | _ => false end.

(** How often [handleAutoSubmit] ran: each run leaves its warning. *)
Definition autoSubmissions (w : World) : nat :=
  length (List.filter is_warning (toasts w)).

(** What every reachable world satisfies: an armed interval means time
    is left and nothing was auto-submitted yet. *)
Definition countdown_inv (w : World) : Prop :=
  (loading (state w) = true -> interval w = None /\ autoSubmissions w = 0%nat)
  /\ (interval w <> None -> autoSubmissions w = 0%nat /\ 0 < timeLeft (state w))
  /\ (autoSubmissions w <= 1)%nat.


(** *** What the page derives from the state *)


(** [const answeredCount = Object.keys(answers).length] *)
Definition answeredCount (s : State) : nat := size (answers s).

(** The clock stays between zero and the time the exam allows. *)
Definition clock_in_range (s : State) : Prop :=
  match exam s with
  | None => timeLeft s = 0
  | Some e =>
      Z.min 0 (Exam.duration_minutes e * 60) <= timeLeft s
      <= Z.max 0 (Exam.duration_minutes e * 60)
  end.


(** *** The recorded answers and the closures *)

(** The questions whose recorded answer is their correct option. *)
Definition recorded_correct (s : State) : Z :=
  Z.of_nat (length (List.filter (answered_correctly (answers s)) (questions s))).

(** The attempt [a] counts the answers recorded in [s] and scores them
    with an integer nearest to the percentage. *)
Definition scored_from (s : State) (a : ExamResult.t) : Prop :=
  let N := Z.of_nat (length (questions s)) in
  let c := recorded_correct s in
  ExamResult.total_questions a = N
  /\ ExamResult.correct_answers a = c
  /\ exists sc : Z,
       ExamResult.score a = Num (inject_Z sc)
       /\ - N <= 2 * N * sc - 200 * c <= N
       /\ (sc = exact_score c N \/ sc = exact_score c N - 1)
       /\ (~ halfway c N -> sc = exact_score c N).

(** The render an armed interval closed over has the user, the exam,
    the questions and the start time of the current one. *)
Definition closure_current (w : World) : Prop :=
  forall cl, interval w = Some cl ->
    user cl = user (state w) /\ exam cl = exam (state w)
    /\ questions cl = questions (state w)
    /\ startTime cl = startTime (state w).

(** The render an armed interval closed over has the answers recorded
    now. *)
Definition answers_current (w : World) : Prop :=
  forall cl, interval w = Some cl -> answers cl = answers (state w).



End TakeExam.

(** ** Sessions used as examples *)

Module Scenarios.
Import TakeExam.
Local Open Scope string_scope.

Definition question (id correct : string) : Question.t :=
  {| Question.id := id; Question.question_text := "?";
     Question.option_a := "a"; Question.option_b := "b";
     Question.option_c := "c"; Question.option_d := "d";
     Question.correct_option := correct; Question.order_index := 0 |}.

Definition exam_of (minutes : Z) : Exam.t :=
  {| Exam.id := "e1"; Exam.title := "Sample"; Exam.description := None;
     Exam.category := "prelims"; Exam.duration_minutes := minutes |}.

Definition empty : Database := {| exam_results := []; student_answers := [] |}.

(** A student [u1] opens the exam at time 0. *)
Definition opened : World := mount (Some "u1") 0 empty.

(** [n] questions with ids 1 to [n], option A correct in each. *)
Definition paper (n : nat) : list Question.t :=
  map (fun i => question (pretty i) "A") (seq 1 n).

(** The student picks A in the first [k] questions. *)
Definition picks (k : nat) : list Event :=
  map (fun i => SelectAnswer (pretty i) "A") (seq 1 k).

(** The three-question session of the design document: Q1 answered
    correctly, Q2 wrongly, Q3 not at all, twenty minutes allowed. *)
Definition three : list Question.t :=
  [question "q1" "A"; question "q2" "B"; question "q3" "C"].

Definition three_taken : World :=
  run opened [Loaded (exam_of 20) three;
              SelectAnswer "q1" "A"; SelectAnswer "q2" "C"].

(** Forty questions, twenty-three answered correctly, then submitted by
    hand from the last question and accepted by the store. *)
Definition forty_submitted : World :=
  run opened ([Loaded (exam_of 40) (paper 40)] ++ picks 23 ++
              [GoToQuestion 39; OpenDialog; ClickSubmit 90000;
               Respond 0 (Data "r1"); Respond 0 (Data "")]).

(** One minute allowed; the student presses Submit in the last second,
    the request is still under way when the interval fires; then the
    store accepts everything. *)
Definition late_click : list Event :=
  [Loaded (exam_of 1) [question "q1" "A"]; SelectAnswer "q1" "A"]
  ++ map Tick (map (fun i => Z.of_nat i * 1000) (seq 1 59))
  ++ [OpenDialog; ClickSubmit 59500].

Definition overlapped : World :=
  run opened (late_click ++
              [Tick 60000;
               Respond 0 (Data "r1"); Respond 0 (Data "r2");
               Respond 0 (Data ""); Respond 0 (Data "")]).

(** The same session with the dialog opened from the last question. *)
Definition three_ready : World := run three_taken [GoToQuestion 2; OpenDialog].

(** One question, one minute; [early] is picked at once and the
    interval has fired fifty-nine times. *)
Definition last_second (early : list Event) : list Event :=
  [Loaded (exam_of 1) [question "q1" "A"]] ++ early
  ++ map Tick (map (fun i => Z.of_nat i * 1000) (seq 1 59)).

End Scenarios.

(** ** The exam editor ([ExamEditor]) *)

Module ExamEditor.

Inductive ExamCategory := basic | prelims | mains.

(** ['A' | 'B' | 'C' | 'D'] *)
Inductive CorrectOption := A | B | C | D.

Module Question.
Record t := {
  id : option string;
  question_text : string;
  option_a : string;
  option_b : string;
  option_c : string;
  option_d : string;
  correct_option : CorrectOption;
  order_index : Z;
}.
End Question.

Record ExamForm := {
  title : string;
  description : string;
  category : ExamCategory;
  duration_minutes : Z;
  is_active : bool;
}.

Definition DURATION_BY_CATEGORY (c : ExamCategory) : Z :=
  match c with
  | basic => 40
  | prelims => 20
  | mains => 30
  end.

(** [setExam(prev => ({ ...prev, category,
    duration_minutes: DURATION_BY_CATEGORY[category] }))] *)
Definition handleCategoryChange (category : ExamCategory) (prev : ExamForm) : ExamForm :=
  {| title := title prev;
     description := description prev;
     category := category;
     duration_minutes := DURATION_BY_CATEGORY category;
     is_active := is_active prev |}.

(** A row of [exams] without its [id]. *)
Module ExamRow.
Record t := {
  title : string;
  description : option string;
  category : ExamCategory;
  duration_minutes : Z;
  is_active : bool;
  created_by : option string;
}.
End ExamRow.

(** A row of [questions] as [handleSave] writes it; [id] and
    [created_at] are filled in by the store. *)
Module QuestionRow.
Record t := {
  exam_id : string;
  question_text : string;
  option_a : string;
  option_b : string;
  option_c : string;
  option_d : string;
  correct_option : CorrectOption;
  order_index : Z;
}.
End QuestionRow.

Record Database := {
  exams : list (string * ExamRow.t);      (* id, row *)
  questions : list QuestionRow.t;
}.

(** What the component holds when Save is pressed. *)
Record Editor := {
  id : option string;                     (* [useParams().id] *)
  user : option string;                   (* [user?.id] *)
  exam : ExamForm;
  editor_questions : list Question.t;     (* the [questions] state *)
}.

(** The answers of the store to the requests one [handleSave] can
    send, [true] or [Some id] for an accepted request. *)
Record Store := {
  update_exam : bool;
  delete_questions : bool;
  insert_exam : option string;
  insert_questions : bool;
}.

Inductive Toast :=
| success (message : string)
| error (message : string).

Record Outcome := {
  db_after : Database;
  toasts : list Toast;
  navigated : list string;
}.

(** A string stands for the UTF-8 encoding of the JavaScript string.
    [code_points] reads the code points back; a byte that starts no
    well-formed sequence reads as U+FFFD. *)
Definition continuation (b : N) : bool := ((128 <=? b) && (b <? 192))%N.

Fixpoint code_points (bs : list N) : list N :=
  match bs with
  | [] => []
  | b0 :: r0 =>
      if (b0 <? 128)%N then b0 :: code_points r0
      else
        match r0 with
        | [] => [65533%N]
        | b1 :: r1 =>
            if negb (continuation b1) then 65533%N :: code_points r0
            else if ((194 <=? b0) && (b0 <? 224))%N
            then ((b0 - 192) * 64 + (b1 - 128))%N :: code_points r1
            else
              match r1 with
              | [] => [65533%N]
              | b2 :: r2 =>
                  if negb (continuation b2) then 65533%N :: code_points r1
                  else if ((224 <=? b0) && (b0 <? 240))%N
                  then ((b0 - 224) * 4096 + (b1 - 128) * 64 + (b2 - 128))%N
                       :: code_points r2
                  else
                    match r2 with
                    | [] => [65533%N]
                    | b3 :: r3 =>
                        if continuation b3 && ((240 <=? b0) && (b0 <? 245))%N
                        then ((b0 - 240) * 262144 + (b1 - 128) * 4096
                              + (b2 - 128) * 64 + (b3 - 128))%N
                             :: code_points r3
                        else 65533%N :: code_points r2
                    end
              end
        end
  end.

(** The white space and the line terminators [String.prototype.trim]
    removes: U+0009 to U+000D, U+0020, U+00A0, U+1680, U+2000 to
    U+200A, U+2028, U+2029, U+202F, U+205F, U+3000 and U+FEFF. *)
Definition is_space (c : N) : bool :=
  (((9 <=? c) && (c <=? 13)) || (c =? 32) || (c =? 160) || (c =? 5760)
   || ((8192 <=? c) && (c <=? 8202)) || (c =? 8232) || (c =? 8233)
   || (c =? 8239) || (c =? 8287) || (c =? 12288) || (c =? 65279))%N.

(** [!s.trim()]: nothing is left once the white space is removed. *)
Definition blank (s : string) : bool :=
  forallb is_space (code_points (map N_of_ascii (list_ascii_of_string s))).

(** [exam.description || null] *)
Definition or_null (s : string) : option string :=
  if bool_decide (s = ""%string) then None else Some s.

(** [const isEditing = !!id] *)
Definition isEditing (ed : Editor) : bool :=
  match id ed with
  | Some s => negb (bool_decide (s = ""%string))
  | None => false
  end.

Definition incomplete (q : Question.t) : bool :=
  blank (Question.question_text q) || blank (Question.option_a q)
  || blank (Question.option_b q) || blank (Question.option_c q)
  || blank (Question.option_d q).

(** The loop over the questions: the position of the first
    incomplete one. *)
Fixpoint first_incomplete (i : nat) (qs : list Question.t) : option nat :=
  match qs with
  | [] => None
  | q :: rest => if incomplete q then Some i else first_incomplete (S i) rest
  end.

(** The checks at the head of [handleSave]: the message of the toast
    it returns with, if any. *)
Definition validate (ed : Editor) : option string :=
  if blank (title (exam ed)) then Some "Please enter an exam title"%string
  else if bool_decide (editor_questions ed = [])
       then Some "Please add at least one question"%string
  else match first_incomplete 0 (editor_questions ed) with
       | Some i =>
           Some ("Please fill in all fields for question " +:+ pretty (S i))
       | None => None
       end.

(** [questions.map((q, index) => ({ exam_id: examId, ...,
    order_index: index }))] *)
Definition questionsToInsert (examId : string) (qs : list Question.t) : list QuestionRow.t :=
  imap (fun index q =>
          {| QuestionRow.exam_id := examId;
             QuestionRow.question_text := Question.question_text q;
             QuestionRow.option_a := Question.option_a q;
             QuestionRow.option_b := Question.option_b q;
             QuestionRow.option_c := Question.option_c q;
             QuestionRow.option_d := Question.option_d q;
             QuestionRow.correct_option := Question.correct_option q;
             QuestionRow.order_index := Z.of_nat index |})
       qs.

(** [from('exams').update({...}).eq('id', id)] *)
Definition update_exams (examId : string) (f : ExamForm) (d : Database) : Database :=
  {| exams :=
       map (fun r =>
              if bool_decide (r.1 = examId)
              then (r.1, {| ExamRow.title := title f;
                            ExamRow.description := or_null (description f);
                            ExamRow.category := category f;
                            ExamRow.duration_minutes := duration_minutes f;
                            ExamRow.is_active := is_active f;
                            ExamRow.created_by := ExamRow.created_by r.2 |})
              else r)
           (exams d);
     questions := questions d |}.

(** The rows of [questions] that belong to an exam. *)
Definition of_exam (examId : string) (r : QuestionRow.t) : bool :=
  bool_decide (QuestionRow.exam_id r = examId).

(** [from('questions').delete().eq('exam_id', id)] *)
Definition delete_exam_questions (examId : string) (d : Database) : Database :=
  {| exams := exams d;
     questions :=
       List.filter (fun r => negb (of_exam examId r)) (questions d) |}.

(** [from('exams').insert({...}).select('id').single()] *)
Definition insert_exams (examId : string) (ed : Editor) (d : Database) : Database :=
  {| exams :=
       exams d ++
       [(examId, {| ExamRow.title := title (exam ed);
                    ExamRow.description := or_null (description (exam ed));
                    ExamRow.category := category (exam ed);
                    ExamRow.duration_minutes := duration_minutes (exam ed);
                    ExamRow.is_active := is_active (exam ed);
                    ExamRow.created_by := user ed |})];
     questions := questions d |}.

Definition failed (d : Database) : Outcome :=
  {| db_after := d; toasts := [error "Failed to save exam"]; navigated := [] |}.

(** The tail of [handleSave]: insert the questions, report. *)
Definition saveQuestions (st : Store) (examId : string) (ed : Editor)
           (d : Database) : Outcome :=
  if insert_questions st
  then {| db_after :=
            {| exams := exams d;
               questions :=
                 questions d ++ questionsToInsert examId (editor_questions ed) |};
          toasts := [success (if isEditing ed
                              then "Exam updated successfully"
                              else "Exam created successfully")];
          navigated := ["/admin/exams"%string] |}
  else failed d.

(** [handleSave].  Its requests are awaited one after the other, so
    the run is a function of the answers of the store.  The [saving]
    flag, set before the first request and reset in [finally], only
    disables the button and is left out. *)
Definition handleSave (st : Store) (ed : Editor) (d : Database) : Outcome :=
  match validate ed with
  | Some message => {| db_after := d; toasts := [error message]; navigated := [] |}
  | None =>
      if isEditing ed then
        let examId := default ""%string (id ed) in
        if update_exam st then
          let d1 := update_exams examId (exam ed) d in
          (* the answer of the delete is not looked at *)
          let d2 := if delete_questions st
                    then delete_exam_questions examId d1 else d1 in
          saveQuestions st examId ed d2
        else failed d
      else
        match insert_exam st with
        | Some examId => saveQuestions st examId ed (insert_exams examId ed d)
        | None => failed d
        end
  end.

End ExamEditor.

Module EditorScenarios.
Import ExamEditor.
Local Open Scope string_scope.

Definition question (text : string) (correct : CorrectOption) (order : Z) : Question.t :=
  {| Question.id := None; Question.question_text := text;
     Question.option_a := "a"; Question.option_b := "b";
     Question.option_c := "c"; Question.option_d := "d";
     Question.correct_option := correct; Question.order_index := order |}.

Definition row (examId text : string) (order : Z) : QuestionRow.t :=
  {| QuestionRow.exam_id := examId; QuestionRow.question_text := text;
     QuestionRow.option_a := "a"; QuestionRow.option_b := "b";
     QuestionRow.option_c := "c"; QuestionRow.option_d := "d";
     QuestionRow.correct_option := A; QuestionRow.order_index := order |}.

Definition algebra : ExamRow.t :=
  {| ExamRow.title := "Algebra"; ExamRow.description := None;
     ExamRow.category := prelims; ExamRow.duration_minutes := 20;
     ExamRow.is_active := true; ExamRow.created_by := Some "admin1" |}.

(** Exam [e1] with three questions, exam [e2] with one. *)
Definition stored : Database :=
  {| exams := [("e1", algebra); ("e2", algebra)];
     questions := [row "e1" "one" 0; row "e2" "other" 0;
                   row "e1" "two" 1; row "e1" "three" 2] |}.

(** [e1] in the editor after its second question was removed and a new
    one added: the list carries the order indices 0, 2 and 2. *)
Definition editing : Editor :=
  {| id := Some "e1"; user := Some "admin1";
     exam := {| title := "Algebra"; description := ""; category := prelims;
                duration_minutes := 20; is_active := true |};
     editor_questions := [question "one" A 0; question "three" A 2;
                          question "new" B 2] |}.

(** The same form on the create page. *)
Definition creating : Editor :=
  {| id := None; user := Some "admin1"; exam := exam editing;
     editor_questions := editor_questions editing |}.

Definition accepting : Store :=
  {| update_exam := true; delete_questions := true;
     insert_exam := Some "e3"; insert_questions := true |}.

(** The store rejects the delete of the old rows and accepts the rest. *)
Definition delete_rejected : Store :=
  {| update_exam := true; delete_questions := false;
     insert_exam := Some "e3"; insert_questions := true |}.

(** The store rejects the update of the exam, or the insert of the
    questions, and accepts the rest. *)
Definition update_rejected : Store :=
  {| update_exam := false; delete_questions := true;
     insert_exam := Some "e3"; insert_questions := true |}.

Definition insert_rejected : Store :=
  {| update_exam := true; delete_questions := true;
     insert_exam := Some "e3"; insert_questions := false |}.

(** A title made of a no-break space and an ideographic space
    (U+00A0, U+3000), which [trim] removes. *)
Definition spaces_only : string :=
  String (ascii_of_nat 194) (String (ascii_of_nat 160)
    (String (ascii_of_nat 227) (String (ascii_of_nat 128)
       (String (ascii_of_nat 128) EmptyString)))).

Definition untitled : Editor :=
  {| id := Some "e1"; user := Some "admin1";
     exam := {| title := spaces_only; description := ""; category := prelims;
                duration_minutes := 20; is_active := true |};
     editor_questions := editor_questions editing |}.

(** The third question of the form has lost its option C. *)
Definition third_incomplete : Editor :=
  {| id := Some "e1"; user := Some "admin1"; exam := exam editing;
     editor_questions :=
       [question "one" A 0; question "three" A 2;
        {| Question.id := None; Question.question_text := "new";
           Question.option_a := "a"; Question.option_b := "b";
           Question.option_c := " "; Question.option_d := "d";
           Question.correct_option := B; Question.order_index := 2 |};
        {| Question.id := None; Question.question_text := "";
           Question.option_a := "a"; Question.option_b := "b";
           Question.option_c := "c"; Question.option_d := "d";
           Question.correct_option := B; Question.order_index := 3 |}] |}.

End EditorScenarios.

(** ** Sign-up ([useAuth]) and the policies on [user_roles] *)

Module Auth.

(** [CREATE TYPE public.app_role AS ENUM ('admin', 'student')] *)
Inductive app_role := admin | student.

Global Instance app_role_eq_dec : EqDecision app_role.
Proof. solve_decision. Defined.

Module UserRole.
Record t := {
  user_id : string;
  role : app_role;
}.
End UserRole.

Module Profile.
Record t := {
  user_id : string;
  email : string;
  full_name : string;
}.
End Profile.

(** The tables sign-up touches and the session of the caller. *)
Record Backend := {
  users : list (string * string);        (* [auth.users]: id, email *)
  profiles : list Profile.t;
  user_roles : list UserRole.t;
  uid : option string;                   (* [auth.uid()] *)
}.

(** [public.has_role(_user_id, _role)] *)
Definition has_role (b : Backend) (_user_id : option string) (_role : app_role) : bool :=
  existsb (fun r => bool_decide (Some (UserRole.user_id r) = _user_id)
                    && bool_decide (UserRole.role r = _role))
          (user_roles b).

(** The two [FOR SELECT] policies on [user_roles]:
    [USING (auth.uid() = user_id)] and
    [USING (public.has_role(auth.uid(), 'admin'))]. *)
Definition can_select (b : Backend) (r : UserRole.t) : bool :=
  bool_decide (uid b = Some (UserRole.user_id r)) || has_role b (uid b) admin.

(** [from('user_roles').select('id').eq('role', 'admin').limit(1)] as
    the caller sees it. *)
Definition existingAdmin (b : Backend) : list UserRole.t :=
  take 1 (List.filter (fun r => can_select b r
                                && bool_decide (UserRole.role r = admin))
                      (user_roles b)).

(** Whether some account holds the admin role. *)
Definition has_admin (b : Backend) : bool :=
  existsb (fun r => bool_decide (UserRole.role r = admin)) (user_roles b).

(** [FOR INSERT WITH CHECK (auth.uid() = user_id)] and
    [UNIQUE (user_id, role)]. *)
Definition can_insert (b : Backend) (r : UserRole.t) : bool :=
  bool_decide (uid b = Some (UserRole.user_id r))
  && negb (existsb (fun r' => bool_decide (UserRole.user_id r' = UserRole.user_id r)
                              && bool_decide (UserRole.role r' = UserRole.role r))
                   (user_roles b)).

(** The answer of the identity provider to [auth.signUp]. *)
Inductive AuthResponse :=
| AuthError (message : string)
| AuthUser (id : string) (session : bool)   (* [data.user], signed in or awaiting confirmation *)
| AuthNoUser.                               (* no error and no [data.user] *)

(** The account the provider creates, the profile the trigger
    [on_auth_user_created] adds, and the session when there is one. *)
Definition create_account (id email fullName : string) (session : bool)
           (b : Backend) : Backend :=
  {| users := users b ++ [(id, email)];
     profiles := profiles b ++
                 [{| Profile.user_id := id; Profile.email := email;
                     Profile.full_name := fullName |}];
     user_roles := user_roles b;
     uid := if session then Some id else uid b |}.

Definition insert_role (r : UserRole.t) (b : Backend) : Backend :=
  {| users := users b; profiles := profiles b;
     user_roles := user_roles b ++ [r]; uid := uid b |}.

(** The [error] of the object [signUp] returns. *)
Inductive SignUpError :=
| NewError (message : string)        (* [new Error(message)] *)
| ProviderError (message : string)   (* the [error] of [auth.signUp] *)
| RoleError.                         (* the [roleError] of the insert *)

Record Result := {
  backend : Backend;
  error : option SignUpError;       (* [{ error }] *)
  role : option app_role;           (* the [role] state after [setRole] *)
}.

Definition admin_exists : SignUpError :=
  NewError "An admin account already exists. Only one admin is allowed.".

Definition signUp (email password fullName : string) (userRole : app_role)
           (idp : AuthResponse) (current : option app_role) (b : Backend) : Result :=
  if bool_decide (userRole = admin)
     && (0 <? length (existingAdmin b))%nat
  then {| backend := b; error := Some admin_exists; role := current |}
  else
    match idp with
    | AuthError message =>
        {| backend := b; error := Some (ProviderError message); role := current |}
    | AuthNoUser =>
        {| backend := b; error := None; role := current |}
    | AuthUser id session =>
        let b1 := create_account id email fullName session b in
        let r := {| UserRole.user_id := id; UserRole.role := userRole |} in
        if can_insert b1 r
        then {| backend := insert_role r b1; error := None; role := Some userRole |}
        else {| backend := b1; error := Some RoleError; role := current |}
    end.

End Auth.

Module AuthScenarios.
Import Auth.
Local Open Scope string_scope.

(** One account, an admin; the visitor is not signed in. *)
Definition one_admin : Backend :=
  {| users := [("u1", "root@example.org")];
     profiles := [{| Profile.user_id := "u1"; Profile.email := "root@example.org";
                     Profile.full_name := "Root" |}];
     user_roles := [{| UserRole.user_id := "u1"; UserRole.role := admin |}];
     uid := None |}.

(** The same tables seen by the admin, signed in. *)
Definition as_admin : Backend :=
  {| users := users one_admin; profiles := profiles one_admin;
     user_roles := user_roles one_admin; uid := Some "u1" |}.

End AuthScenarios.


(** * Properties *)

(** ** Rounding to a double *)

Module JsNumberFacts.
Import JsNumber.
Local Open Scope Q_scope.

Lemma pow2_pos e : 0 < pow2 e.
Proof. unfold pow2. apply Qpower_0_lt. reflexivity. Qed.

Lemma pow2_add a b : pow2 (a + b) == pow2 a * pow2 b.
Proof. unfold pow2. apply Qpower_plus. discriminate. Qed.

Lemma pow2_inject (n : Z) : (0 <= n)%Z -> inject_Z (2 ^ n) == pow2 n.
Proof. intros H. unfold pow2. now rewrite Zpower_Qpower. Qed.

(** [rne t] is within one half of [t]. *)
Lemma rne_bounds t :
  inject_Z (rne t) - t <= 1 # 2 /\ t - inject_Z (rne t) <= 1 # 2.
Proof.
  unfold rne.
  pose proof (Qfloor_le t) as Hlo. pose proof (Qlt_floor t) as Hhi.
  rewrite inject_Z_plus in Hhi. change (inject_Z 1) with 1 in Hhi.
  destruct (Qcompare_spec (t - inject_Z (Qfloor t)) (1 # 2)) as [E|E|E].
  - destruct (Z.even (Qfloor t));
      rewrite ?inject_Z_plus; change (inject_Z 1) with 1; lra.
  - lra.
  - rewrite inject_Z_plus. change (inject_Z 1) with 1. lra.
Qed.

(** The binade found is not above [x]. *)
Lemma binade_lower x : 0 < x -> pow2 (binade x) <= x.
Proof.
  intros Hx. unfold binade.
  set (a := Qnum x). set (b := Zpos (Qden x)).
  destruct (Qle_bool (pow2 (Z.log2 a - Z.log2 b)) x) eqn:E.
  - now apply Qle_bool_iff.
  - clear E.
    assert (Ha : (0 < a)%Z).
    { destruct x as [n d]. unfold Qlt in Hx. simpl in *. subst a. simpl. lia. }
    assert (Hb : (0 < b)%Z) by (subst b; lia).
    destruct (Z.log2_spec a Ha) as [Ha1 _].
    destruct (Z.log2_spec b Hb) as [_ Hb2].
    pose proof (Z.log2_nonneg a) as La. pose proof (Z.log2_nonneg b) as Lb.
    assert (Qa : pow2 (Z.log2 a) <= inject_Z a).
    { rewrite <- pow2_inject by lia. now rewrite <- Zle_Qle. }
    assert (Qb : inject_Z b <= pow2 (Z.succ (Z.log2 b))).
    { rewrite <- pow2_inject by lia. rewrite <- Zle_Qle. lia. }
    assert (Hx' : x == inject_Z a / inject_Z b).
    { destruct x as [n d]. subst a b. simpl. apply Qmake_Qdiv. }
    assert (Qb0 : 0 < inject_Z b).
    { change 0 with (inject_Z 0). now rewrite <- Zlt_Qlt. }
    assert (Hs : pow2 (Z.log2 a)
                 == pow2 (Z.log2 a - Z.log2 b - 1) * pow2 (Z.succ (Z.log2 b))).
    { rewrite <- pow2_add. f_equiv. lia. }
    pose proof (pow2_pos (Z.log2 a - Z.log2 b - 1)) as P1.
    rewrite Hx'. apply Qle_shift_div_l; [exact Qb0|].
    apply Qle_trans
      with (pow2 (Z.log2 a - Z.log2 b - 1) * pow2 (Z.succ (Z.log2 b))).
    + apply Qmult_le_l; assumption.
    + rewrite <- Hs. exact Qa.
Qed.

Lemma round53_nonneg x : 0 <= round53 x.
Proof.
  unfold round53. destruct (Qle_bool x 0) eqn:E; [lra|].
  assert (Hx : 0 < x).
  { apply Qnot_le_lt. intros H. apply Qle_bool_iff in H. congruence. }
  rewrite Qred_correct.
  set (e := (binade x - 52)%Z).
  pose proof (pow2_pos e) as Pe.
  apply Qmult_le_0_compat; [|lra].
  destruct (rne_bounds (x / pow2 e)) as [_ H2].
  assert (0 < x / pow2 e) by (apply Qlt_shift_div_l; lra).
  assert (Hm : -1 < inject_Z (rne (x / pow2 e))) by lra.
  change (-1) with (inject_Z (-1)) in Hm. rewrite <- Zlt_Qlt in Hm.
  change 0 with (inject_Z 0). rewrite <- Zle_Qle. lia.
Qed.

(** Rounding to a double moves a positive real by at most [eps] of it. *)
Lemma round53_err x :
  0 < x -> - (x * eps) <= round53 x - x <= x * eps.
Proof.
  intros Hx. unfold round53.
  destruct (Qle_bool x 0) eqn:E.
  { apply Qle_bool_iff in E. lra. }
  rewrite Qred_correct.
  set (e := (binade x - 52)%Z).
  pose proof (pow2_pos e) as Pe.
  pose proof (binade_lower x Hx) as Hb.
  assert (Hk : pow2 (binade x) == pow2 e * pow2 52).
  { rewrite <- pow2_add. f_equiv. subst e. lia. }
  assert (He : pow2 e * (1 # 2) <= x * eps).
  { unfold eps. change (pow2 52) with (4503599627370496 # 1) in Hk.
    change (pow2 (-53)) with (1 # 9007199254740992). lra. }
  destruct (rne_bounds (x / pow2 e)) as [H1 H2].
  set (m := inject_Z (rne (x / pow2 e))) in *.
  assert (Ht : x == (x / pow2 e) * pow2 e) by (field; lra).
  set (t := x / pow2 e) in *.
  assert (A : (m - t) * pow2 e <= (1 # 2) * pow2 e) by (apply Qmult_le_r; lra).
  assert (B : (t - m) * pow2 e <= (1 # 2) * pow2 e) by (apply Qmult_le_r; lra).
  split.
  - assert (m * pow2 e - x == - ((t - m) * pow2 e)) by (rewrite Ht at 1; ring).
    lra.
  - assert (m * pow2 e - x == (m - t) * pow2 e) by (rewrite Ht at 1; ring).
    lra.
Qed.

Lemma round53_err0 x :
  0 <= x -> - (x * eps) <= round53 x - x <= x * eps.
Proof.
  intros Hx. destruct (Qlt_le_dec 0 x) as [H|H]; [now apply round53_err|].
  unfold round53. replace (Qle_bool x 0) with true.
  - unfold eps. change (pow2 (-53)) with (1 # 9007199254740992). lra.
  - symmetry. now apply Qle_bool_iff.
Qed.

(** [percent c n] is within [n / 4e12] of [100 c / n], times [n]. *)
Lemma percent_bounds (c n : Z) :
  (0 <= c <= n)%Z -> (0 < n)%Z ->
  let X := inject_Z c in
  let N := inject_Z n in
  0 <= percent c n /\
  - (N * (1 # 4000000000000)) <= percent c n * N - 100 * X
    <= N * (1 # 4000000000000).
Proof.
  intros Hc Hn X N.
  assert (HN : 0 < N)
    by (subst N; change 0 with (inject_Z 0); now rewrite <- Zlt_Qlt).
  assert (HX : 0 <= X <= N)
    by (subst X N; change 0 with (inject_Z 0); rewrite <- !Zle_Qle; lia).
  unfold percent. fold X N. change (inject_Z 100) with 100.
  set (x := X / N).
  assert (Hx0 : 0 <= x) by (apply Qle_shift_div_l; lra).
  assert (Hx1 : x <= 1) by (apply Qle_shift_div_r; lra).
  assert (HxN : x * N == X) by (subst x; field; lra).
  pose proof (round53_err0 x Hx0) as E1.
  set (q := round53 x) in *.
  assert (Hy0 : 0 <= q * 100).
  { pose proof (round53_nonneg x) as H. fold q in H. lra. }
  pose proof (round53_err0 (q * 100) Hy0) as E2.
  set (p := round53 (q * 100)) in *.
  unfold eps in *. change (pow2 (-53)) with (1 # 9007199254740992) in *.
  split.
  - subst p. apply round53_nonneg.
  - assert (D : - (1 # 4000000000000) <= p - 100 * x <= 1 # 4000000000000)
      by lra.
    assert (Hp : p * N - 100 * X == (p - 100 * x) * N)
      by (rewrite <- HxN; ring).
    rewrite Hp. split.
    + apply Qle_trans with ((- (1 # 4000000000000)) * N); [lra|].
      apply Qmult_le_r; lra.
    + apply Qle_trans with ((1 # 4000000000000) * N); [|lra].
      apply Qmult_le_r; lra.
Qed.

Lemma Qfloor_lt_Z (y : Q) (k : Z) : y < inject_Z k -> (Qfloor y < k)%Z.
Proof.
  intros H. rewrite Zlt_Qlt. eapply Qle_lt_trans; [apply Qfloor_le | exact H].
Qed.

Lemma Qfloor_ge_Z (y : Q) (k : Z) : inject_Z k <= y -> (k <= Qfloor y)%Z.
Proof.
  intros H. rewrite <- (Qfloor_Z k). now apply Qfloor_resp_le.
Qed.

(** The rounded percentage of [c] out of [n >= c] is between 0 and 100. *)
Lemma score_int_range (c n : Z) :
  (0 <= c <= n)%Z -> (0 < n)%Z -> (0 <= score_int c n <= 100)%Z.
Proof.
  intros Hc Hn. destruct (percent_bounds c n Hc Hn) as [P0 [P1 P2]].
  cbv zeta in *. unfold score_int.
  set (p := percent c n) in *.
  assert (HN : 0 < inject_Z n)
    by (change 0 with (inject_Z 0); now rewrite <- Zlt_Qlt).
  assert (HX : inject_Z c <= inject_Z n) by (rewrite <- Zle_Qle; lia).
  assert (Hp : p < 100 + (1 # 2)).
  { apply Qnot_le_lt. intros A.
    assert ((100 + (1 # 2)) * inject_Z n <= p * inject_Z n)
      by (apply Qmult_le_r; lra).
    lra. }
  split.
  - apply Qfloor_ge_Z. change (inject_Z 0) with 0. lra.
  - assert (Qfloor (p + (1 # 2)) < 101)%Z; [|lia].
    apply Qfloor_lt_Z. change (inject_Z 101) with 101. lra.
Qed.

(** It is an integer nearest to [100 c / n]: [|s - 100 c / n| <= 1/2]. *)
Lemma score_int_nearest (c n : Z) :
  (0 <= c <= n)%Z -> (0 < n < 2 ^ 32)%Z ->
  (- n <= 2 * n * score_int c n - 200 * c <= n)%Z.
Proof.
  intros Hc Hn. destruct (percent_bounds c n Hc ltac:(lia)) as [P0 [P1 P2]].
  cbv zeta in *. unfold score_int.
  set (p := percent c n) in *.
  pose proof (Qfloor_le (p + (1 # 2))) as F1.
  pose proof (Qlt_floor (p + (1 # 2))) as F2.
  set (s := Qfloor (p + (1 # 2))) in *.
  rewrite inject_Z_plus in F2. change (inject_Z 1) with 1 in F2.
  assert (HN : 0 < inject_Z n)
    by (change 0 with (inject_Z 0); rewrite <- Zlt_Qlt; lia).
  assert (HN2 : inject_Z n < 4294967296).
  { change 4294967296 with (inject_Z (2 ^ 32)). rewrite <- Zlt_Qlt. lia. }
  assert (G1 : inject_Z s * inject_Z n <= (p + (1 # 2)) * inject_Z n)
    by (apply Qmult_le_r; lra).
  assert (G2 : (p + (1 # 2)) * inject_Z n < (inject_Z s + 1) * inject_Z n)
    by (apply Qmult_lt_r; lra).
  assert (U : inject_Z (2 * n * s - 200 * c) < inject_Z (n + 1)).
  { unfold Zminus. rewrite !inject_Z_plus, inject_Z_opp, !inject_Z_mult.
    change (inject_Z 1) with 1. change (inject_Z 2) with 2.
    change (inject_Z 200) with 200. lra. }
  assert (L : inject_Z (- n - 1) < inject_Z (2 * n * s - 200 * c)).
  { unfold Zminus. rewrite !inject_Z_plus, !inject_Z_opp, !inject_Z_mult.
    change (inject_Z 1) with 1. change (inject_Z 2) with 2.
    change (inject_Z 200) with 200. lra. }
  rewrite <- Zlt_Qlt in U, L. lia.
Qed.

(** The binade found is the one [x] lies in. *)
Lemma binade_upper x : 0 < x -> x < pow2 (binade x + 1).
Proof.
  intros Hx. unfold binade.
  set (a := Qnum x). set (b := Zpos (Qden x)).
  destruct (Qle_bool (pow2 (Z.log2 a - Z.log2 b)) x) eqn:E.
  - assert (Ha : (0 < a)%Z).
    { destruct x as [n d]. unfold Qlt in Hx. simpl in *. subst a. simpl. lia. }
    assert (Hb : (0 < b)%Z) by (subst b; lia).
    destruct (Z.log2_spec a Ha) as [_ Ha2].
    destruct (Z.log2_spec b Hb) as [Hb1 _].
    pose proof (Z.log2_nonneg a) as La. pose proof (Z.log2_nonneg b) as Lb.
    assert (Qa : inject_Z a < pow2 (Z.succ (Z.log2 a))).
    { rewrite <- pow2_inject by lia. now rewrite <- Zlt_Qlt. }
    assert (Qb : pow2 (Z.log2 b) <= inject_Z b).
    { rewrite <- pow2_inject by lia. now rewrite <- Zle_Qle. }
    assert (Hx' : x == inject_Z a / inject_Z b).
    { destruct x as [n d]. subst a b. simpl. apply Qmake_Qdiv. }
    assert (Qb0 : 0 < inject_Z b).
    { change 0 with (inject_Z 0). now rewrite <- Zlt_Qlt. }
    assert (Hs : pow2 (Z.succ (Z.log2 a))
                 == pow2 (Z.log2 a - Z.log2 b + 1) * pow2 (Z.log2 b)).
    { rewrite <- pow2_add. f_equiv. lia. }
    pose proof (pow2_pos (Z.log2 a - Z.log2 b + 1)) as P1.
    rewrite Hx'. apply Qlt_shift_div_r; [exact Qb0|].
    apply Qlt_le_trans with (pow2 (Z.log2 a - Z.log2 b + 1) * pow2 (Z.log2 b)).
    + rewrite <- Hs. exact Qa.
    + apply Qmult_le_l; assumption.
  - replace (Z.log2 a - Z.log2 b - 1 + 1)%Z with (Z.log2 a - Z.log2 b)%Z by lia.
    apply Qnot_le_lt. intros H. apply Qle_bool_iff in H. congruence.
Qed.

(** [round53 x] is [m * 2^e] for the integer [m] nearest to [x / 2^e],
    ties to even, where [e] makes [m] a significand of 53 bits: the
    rounding of IEEE-754 binary64 in its normal range. *)
Lemma round53_significand x :
  0 < x ->
  let e := (binade x - 52)%Z in
  let m := rne (x / pow2 e) in
  round53 x == inject_Z m * pow2 e
  /\ (2 ^ 52 <= m <= 2 ^ 53)%Z.
Proof.
  intros Hx e m. split.
  - unfold round53. destruct (Qle_bool x 0) eqn:E.
    + apply Qle_bool_iff in E. lra.
    + apply Qred_correct.
  - pose proof (pow2_pos e) as Pe.
    pose proof (binade_lower x Hx) as Lo.
    pose proof (binade_upper x Hx) as Up.
    assert (Hk : pow2 (binade x) == pow2 e * pow2 52).
    { rewrite <- pow2_add. f_equiv. subst e. lia. }
    assert (Hk1 : pow2 (binade x + 1) == pow2 e * pow2 53).
    { rewrite <- pow2_add. f_equiv. subst e. lia. }
    change (pow2 52) with (4503599627370496 # 1) in Hk.
    change (pow2 53) with (9007199254740992 # 1) in Hk1.
    assert (T1 : 4503599627370496 <= x / pow2 e) by (apply Qle_shift_div_l; lra).
    assert (T2 : x / pow2 e < 9007199254740992) by (apply Qlt_shift_div_r; lra).
    destruct (rne_bounds (x / pow2 e)) as [B1 B2]. fold m in B1, B2.
    assert (M1 : inject_Z (2 ^ 52 - 1) < inject_Z m).
    { change (inject_Z (2 ^ 52 - 1)) with (4503599627370495 # 1). lra. }
    assert (M2 : inject_Z m < inject_Z (2 ^ 53 + 1)).
    { change (inject_Z (2 ^ 53 + 1)) with (9007199254740993 # 1). lra. }
    rewrite <- Zlt_Qlt in M1, M2. lia.
Qed.

(** On every pair [0 <= c <= n < 128], and on some larger ones, the two
    operations give the double the floating-point unit gives. *)
Lemma agrees_with_machine :
  agrees_below 128 = true
  /\ forallb (fun p => agrees_at (fst p) (snd p)) large_counts = true.
Proof. vm_compute. split; reflexivity. Qed.

(** The machine's [(23 / 40) * 100] lies below 57.5. *)
Lemma machine_23_of_40 :
  Math_round (machine_percent 23 40) = Num (inject_Z 57).
Proof. vm_compute. reflexivity. Qed.

End JsNumberFacts.

(** ** The exam-taking engine *)

Module TakeExamFacts.
Import JsNumber JsNumberFacts TakeExam Scenarios.

(** *** Counting and scoring *)

Lemma correctCount_from (a : gmap string string) (qs : list Question.t) (n : Z) :
  fold_left (fun n q => if answered_correctly a q then n + 1 else n) qs n
  = n + Z.of_nat (length (List.filter (answered_correctly a) qs)).
Proof.
  revert n. induction qs as [|q qs IH]; intros n; simpl.
  - lia.
  - rewrite IH. destruct (answered_correctly a q); simpl; lia.
Qed.

(** The counter of the [forEach] loop is the number of questions whose
    recorded answer is the correct option. *)
Lemma correctCount_filter (qs : list Question.t) (a : gmap string string) :
  correctCount qs a = Z.of_nat (length (List.filter (answered_correctly a) qs)).
Proof. unfold correctCount. rewrite correctCount_from. lia. Qed.

Lemma correctCount_bounds (qs : list Question.t) (a : gmap string string) :
  0 <= correctCount qs a <= Z.of_nat (length qs).
Proof.
  rewrite correctCount_filter.
  pose proof (List.filter_length_le (answered_correctly a) qs). lia.
Qed.

Lemma answered_correctly_iff (a : gmap string string) (q : Question.t) :
  answered_correctly a q = true
  <-> a !! Question.id q = Some (Question.correct_option q).
Proof. unfold answered_correctly. apply bool_decide_eq_true. Qed.

(** With at least one question the score is the integer [score_int]. *)
Lemma score_of_int (c n : Z) :
  0 < n -> score_of c n = Num (inject_Z (score_int c n)).
Proof.
  intros Hn. unfold score_of, of_Z, div.
  destruct (Qeq_bool (inject_Z n) 0) eqn:E.
  - apply Qeq_bool_iff in E. unfold Qeq in E. simpl in E. lia.
  - reflexivity.
Qed.

(** *** One invocation of [submitExam] *)

Lemma submitExam_proceeds now cl w u e :
  user cl = Some u -> exam cl = Some e ->
  submitExam now cl w
  = await (AwaitResult cl (attempt now u e cl)) (update (setSubmitting true) w).
Proof. intros Hu He. unfold submitExam. now rewrite Hu, He. Qed.

Lemma lookup_snoc {A} (l : list A) (x : A) : (l ++ [x]) !! length l = Some x.
Proof. rewrite lookup_app_r by lia. now rewrite Nat.sub_diag. Qed.

Lemma delete_snoc {A} (l : list A) (x : A) : delete (length l) (l ++ [x]) = l.
Proof.
  induction l as [|y l IH]; simpl; [reflexivity|].
  change (y :: delete (length l) (l ++ [x]) = y :: l). now rewrite IH.
Qed.

(** Answering the invocation that was suspended last. *)
Lemma respond_newest (p : Pending) (r : Response) (w : World) :
  respond (length (inflight w)) r (await p w)
  = resume p r
      {| state := state w; mounted := mounted w; interval := interval w;
         inflight := inflight w; db := commit p r (db w);
         toasts := toasts w; navigated := navigated w |}.
Proof.
  unfold respond, await. simpl.
  rewrite lookup_snoc, delete_snoc. reflexivity.
Qed.

(** An accepted insert into [exam_results] stores the attempt and
    leaves the invocation waiting for the insert of the answers. *)
Lemma attempt_accepted now cl w u e rid :
  user cl = Some u -> exam cl = Some e ->
  let w2 := respond (length (inflight w)) (Data rid) (submitExam now cl w) in
  exam_results (db w2) = exam_results (db w) ++ [(rid, attempt now u e cl)]
  /\ student_answers (db w2) = student_answers (db w)
  /\ inflight w2 = inflight w ++ [AwaitAnswers cl rid (answersToInsert rid cl)].
Proof.
  intros Hu He. cbv zeta.
  rewrite (submitExam_proceeds now cl w u e Hu He).
  change (length (inflight w))
    with (length (inflight (update (setSubmitting true) w))).
  rewrite respond_newest. simpl. auto.
Qed.

Lemma respond_at_end (w : World) (l : list Pending) (p : Pending) (r : Response) :
  inflight w = l ++ [p] ->
  respond (length l) r w
  = resume p r
      {| state := state w; mounted := mounted w; interval := interval w;
         inflight := l; db := commit p r (db w);
         toasts := toasts w; navigated := navigated w |}.
Proof.
  intros H. unfold respond. rewrite H, lookup_snoc, delete_snoc. reflexivity.
Qed.

(** Then the answer to the second insert: accepted, the batch is stored. *)
Lemma answers_accepted now cl w u e rid rid' :
  user cl = Some u -> exam cl = Some e ->
  let w2 := respond (length (inflight w)) (Data rid) (submitExam now cl w) in
  let w3 := respond (length (inflight w)) (Data rid') w2 in
  exam_results (db w3) = exam_results (db w) ++ [(rid, attempt now u e cl)]
  /\ student_answers (db w3) = student_answers (db w) ++ answersToInsert rid cl
  /\ inflight w3 = inflight w.
Proof.
  intros Hu He.
  destruct (attempt_accepted now cl w u e rid Hu He) as (H1 & H2 & H3).
  cbv zeta in *.
  set (w2 := respond (length (inflight w)) (Data rid) (submitExam now cl w)) in *.
  rewrite (respond_at_end w2 _ _ _ H3). simpl. rewrite H1, H2. auto.
Qed.

(** A rejected insert into [exam_results] ends the invocation. *)
Lemma attempt_rejected now cl w u e :
  user cl = Some u -> exam cl = Some e ->
  respond (length (inflight w)) Error (submitExam now cl w)
  = update (setSubmitting false) (toast (error "Failed to submit exam") w).
Proof.
  intros Hu He.
  rewrite (submitExam_proceeds now cl w u e Hu He).
  change (length (inflight w))
    with (length (inflight (update (setSubmitting true) w))).
  rewrite respond_newest. simpl. unfold update, toast. simpl.
  destruct w as [s m iv fl d ts nv]. simpl. f_equal.
Qed.

Lemma setSubmitting_restore (s : State) :
  submitting s = false -> setSubmitting false s = s.
Proof. intros H. destruct s. simpl in *. subst. reflexivity. Qed.

(** *** Navigation *)

(** C6. [goToQuestion index] with [0 <= index < questions.length] sets
    [currentIndex] to [index] and touches nothing else; with any other
    index it returns the world it was given: no toast, no change. *)
Theorem goToQuestion_in_range_or_ignored (index : Z) (w : World) :
  (0 <= index < Z.of_nat (length (questions (state w))) ->
     goToQuestion index w = update (setCurrentIndex index) w
     /\ currentIndex (state (goToQuestion index w)) = index)
  /\ (~ 0 <= index < Z.of_nat (length (questions (state w))) ->
     goToQuestion index w = w).
Proof.
  unfold goToQuestion. split; intros H.
  - replace ((0 <=? index) && (index <? Z.of_nat (length (questions (state w)))))
      with true by (symmetry; apply andb_true_iff; split; lia).
    split; reflexivity.
  - destruct (0 <=? index) eqn:E1; simpl; [|reflexivity].
    destruct (index <? Z.of_nat (length (questions (state w)))) eqn:E2;
      [|reflexivity].
    exfalso. apply H. lia.
Qed.

(** With three questions: index 2 is taken, 3 and -1 are ignored. *)
Lemma goToQuestion_in_range_or_ignored_witness :
  currentIndex (state (goToQuestion 2 three_taken)) = 2
  /\ goToQuestion 3 three_taken = three_taken
  /\ goToQuestion (-1) three_taken = three_taken.
Proof.
  destruct (goToQuestion_in_range_or_ignored 2 three_taken) as [H2 _].
  destruct (goToQuestion_in_range_or_ignored 3 three_taken) as [_ H3].
  destruct (goToQuestion_in_range_or_ignored (-1) three_taken) as [_ H1].
  split; [apply H2; vm_compute; split; [discriminate|reflexivity]|].
  split; [apply H3|apply H1]; vm_compute; intros [A B];
    solve [apply A; reflexivity | discriminate B].
Defined.

(** *** The attempt *)

Lemma length_questions_pos (cl : State) :
  questions cl <> [] -> 0 < Z.of_nat (length (questions cl)).
Proof. destruct (questions cl); [congruence|simpl; lia]. Qed.

(** A nearest integer is the exact rounding or, on a tie only, the
    integer below. *)
Lemma nearest_exact (c n s : Z) :
  0 < n -> - n <= 2 * n * s - 200 * c <= n ->
  (s = exact_score c n \/ s = exact_score c n - 1)
  /\ (~ halfway c n -> s = exact_score c n).
Proof.
  intros Hn Hs. unfold exact_score, halfway.
  pose proof (Z.div_mod (200 * c + n) (2 * n) ltac:(lia)) as D.
  pose proof (Z.mod_pos_bound (200 * c + n) (2 * n) ltac:(lia)) as B.
  set (t := (200 * c + n) / (2 * n)) in *.
  set (r := (200 * c + n) mod (2 * n)) in *.
  assert (Hle : s <= t) by nia.
  assert (Hge : t - 1 <= s) by nia.
  split; [lia|].
  intros Hh. destruct (Z.eq_dec s t) as [|Hne]; [assumption|].
  exfalso. apply Hh. exists (t - 1).
  assert (s = t - 1) by lia. subst s. nia.
Qed.

(** C9. The attempt a submission over a non-empty question list stores
    has [0 <= correct_answers <= total_questions], [total_questions]
    the number of questions loaded, and a score between 0 and 100. *)
Theorem attempt_within_bounds now cl w u e rid :
  user cl = Some u -> exam cl = Some e -> questions cl <> [] ->
  exists a s,
    exam_results
      (db (respond (length (inflight w)) (Data rid) (submitExam now cl w)))
    = exam_results (db w) ++ [(rid, a)]
    /\ 0 <= ExamResult.correct_answers a <= ExamResult.total_questions a
    /\ ExamResult.total_questions a = Z.of_nat (length (questions cl))
    /\ ExamResult.score a = Num (inject_Z s)
    /\ 0 <= s <= 100.
Proof.
  intros Hu He Hq.
  destruct (attempt_accepted now cl w u e rid Hu He) as (H1 & _ & _).
  pose proof (length_questions_pos cl Hq) as Hn.
  pose proof (correctCount_bounds (questions cl) (answers cl)) as Hc.
  exists (attempt now u e cl),
         (score_int (correctCount (questions cl) (answers cl))
                    (Z.of_nat (length (questions cl)))).
  split; [exact H1|]. simpl.
  split; [exact Hc|]. split; [reflexivity|].
  split; [now apply score_of_int|].
  now apply score_int_range.
Qed.

(** The three-question session: one right of three, within bounds. *)
Lemma attempt_within_bounds_witness :
  exists a s,
    exam_results
      (db (respond 0 (Data "r1") (submitExam 5000 (state three_taken) three_taken)))
    = [("r1"%string, a)]
    /\ 0 <= ExamResult.correct_answers a <= ExamResult.total_questions a
    /\ ExamResult.total_questions a = 3
    /\ ExamResult.score a = Num (inject_Z s)
    /\ 0 <= s <= 100.
Proof.
  apply (attempt_within_bounds 5000 (state three_taken) three_taken
           "u1" (exam_of 20) "r1");
    [reflexivity | reflexivity | discriminate].
Defined.

(** C2, where the code leaves it: 23 right out of 40 is 57.5 percent,
    which rounds to 58; the stored score is 57, the double
    [(23 / 40) * 100] being [57.49999999999999]. *)
Lemma score_of_23_in_40_is_not_the_exact_rounding :
  exists a,
    exam_results (db forty_submitted) = [("r1"%string, a)]
    /\ ExamResult.total_questions a = 40
    /\ ExamResult.correct_answers a = 23
    /\ ExamResult.score a = Num (inject_Z 57)
    /\ exact_score 23 40 = 58
    /\ ExamResult.score a
       <> Num (inject_Z (exact_score (ExamResult.correct_answers a)
                                     (ExamResult.total_questions a))).
Proof.
  eexists. split; [vm_compute; reflexivity|].
  repeat split; try (vm_compute; reflexivity).
  vm_compute. discriminate.
Qed.

(** *** The answer records *)

Lemma or_null_absent : or_null None = None.
Proof. reflexivity. Qed.

Lemma or_null_present (o : string) : o <> ""%string -> or_null (Some o) = Some o.
Proof. intros H. unfold or_null. now rewrite bool_decide_eq_false_2. Qed.

(** X5. When the store accepts both inserts of an invocation of
    [submitExam], it adds one row to [exam_results] and one row to
    [student_answers] for each question of the render the invocation
    closed over, the i-th for the i-th question: the row refers to the
    new attempt and to that question, carries the option that render
    had for it ([null] when it had none) and a flag that is true
    exactly when that option is the question's correct one.  How many
    questions were answered plays no part. *)
Theorem accepted_batch_has_one_row_per_question now cl w u e rid rid' :
  user cl = Some u -> exam cl = Some e ->
  let w2 := respond (length (inflight w)) (Data rid) (submitExam now cl w) in
  let w3 := respond (length (inflight w)) (Data rid') w2 in
  exists rows,
    exam_results (db w3) = exam_results (db w) ++ [(rid, attempt now u e cl)]
    /\ student_answers (db w3) = student_answers (db w) ++ rows
    /\ length rows = length (questions cl)
    /\ forall (i : nat) (q : Question.t),
         questions cl !! i = Some q ->
         exists r,
           rows !! i = Some r
           /\ StudentAnswer.result_id r = rid
           /\ StudentAnswer.question_id r = Question.id q
           /\ (answers cl !! Question.id q = None ->
               StudentAnswer.selected_option r = None)
           /\ (forall o, answers cl !! Question.id q = Some o ->
                         o <> ""%string ->
                         StudentAnswer.selected_option r = Some o)
           /\ (StudentAnswer.is_correct r = true
               <-> answers cl !! Question.id q
                   = Some (Question.correct_option q)).
Proof.
  intros Hu He.
  destruct (answers_accepted now cl w u e rid rid' Hu He) as (H1 & H2 & _).
  cbv zeta in *. exists (answersToInsert rid cl).
  split; [exact H1|]. split; [exact H2|].
  split; [apply length_map|].
  intros i q Hq. unfold answersToInsert.
  eexists. split.
  - rewrite list_lookup_fmap, Hq. reflexivity.
  - simpl. split; [reflexivity|]. split; [reflexivity|].
    split; [intros ->; apply or_null_absent|].
    split; [intros o -> Ho; now apply or_null_present|].
    apply answered_correctly_iff.
Qed.

(** Q1 right, Q2 wrong, Q3 left open: three rows, the third with no
    selection. *)
Lemma accepted_batch_has_one_row_per_question_witness :
  exists rows,
    student_answers
      (db (respond 0 (Data "")
             (respond 0 (Data "r1")
                (submitExam 5000 (state three_taken) three_taken))))
    = rows
    /\ length rows = 3%nat
    /\ map StudentAnswer.selected_option rows = [Some "A"; Some "C"; None]%string
    /\ map StudentAnswer.is_correct rows = [true; false; false].
Proof.
  destruct (accepted_batch_has_one_row_per_question
              5000 (state three_taken) three_taken "u1" (exam_of 20) "r1" "")
    as (rows & _ & H1 & H2 & _); [reflexivity | reflexivity |].
  exists rows. split; [exact H1|]. split; [exact H2|].
  assert (E : rows = answersToInsert "r1" (state three_taken)).
  { symmetry. etransitivity; [|exact H1]. vm_compute. reflexivity. }
  rewrite E. split; vm_compute; reflexivity.
Defined.

(** X8. The batch of answer rows and the attempt are computed from the
    same render and agree: the rows flagged correct are as many as the
    attempt's [correct_answers], the rows as many as its
    [total_questions], and every row carries the id the store gave the
    attempt. *)
Theorem answer_rows_agree_with_attempt (now : Z) (u rid : string)
        (e : Exam.t) (cl : State) :
  Z.of_nat (length (List.filter StudentAnswer.is_correct (answersToInsert rid cl)))
  = ExamResult.correct_answers (attempt now u e cl)
  /\ Z.of_nat (length (answersToInsert rid cl))
     = ExamResult.total_questions (attempt now u e cl)
  /\ Forall (fun r => StudentAnswer.result_id r = rid) (answersToInsert rid cl)
  /\ map StudentAnswer.question_id (answersToInsert rid cl)
     = map Question.id (questions cl).
Proof.
  unfold answersToInsert, attempt. simpl.
  rewrite correctCount_filter.
  split; [|split; [|split]].
  - f_equal. induction (questions cl) as [|q qs IH]; [reflexivity|]. simpl.
    destruct (answered_correctly (answers cl) q); simpl; now rewrite IH.
  - now rewrite length_map.
  - apply Forall_forall. intros r Hr.
    apply list_elem_of_In, in_map_iff in Hr as (q & <- & _). reflexivity.
  - rewrite map_map. reflexivity.
Qed.

(** C3.  Two sessions whose answer records are not the ones described.
    In the first the store accepts the attempt and rejects the batch of
    answers: [submitExam] does not look at the answer of the second
    insert, so the attempt stays without any answer record and the
    student is told the exam was submitted and sent to the result page.
    In the second the one question is answered in the last second,
    after the interval was armed: the last tick submits through the
    [handleAutoSubmit] of the render that armed it, and the record
    stored for the question carries no selection and [is_correct =
    false] although the recorded answer is the correct option. *)
Theorem answer_records_lost_or_stale :
  (let w := run three_ready
                [ClickSubmit 5000; Respond 0 (Data "r1"); Respond 0 Error] in
   map fst (exam_results (db w)) = ["r1"%string]
   /\ student_answers (db w) = []
   /\ toasts w = [success "Exam submitted successfully!"]
   /\ navigated w = ["/student/result/r1"%string])
  /\ (let w0 := run opened (last_second [] ++ [SelectAnswer "q1" "A"]) in
      let w := run w0 [Tick 60000; Respond 0 (Data "r1"); Respond 0 (Data "")] in
      answers (state w0) !! "q1"%string = Some "A"%string
      /\ map Question.correct_option (questions (state w0)) = ["A"%string]
      /\ map (fun r => (fst r, ExamResult.total_questions (snd r),
                        ExamResult.correct_answers (snd r)))
             (exam_results (db w))
         = [("r1"%string, 1, 0)]
      /\ student_answers (db w)
         = [ {| StudentAnswer.result_id := "r1";
                StudentAnswer.question_id := "q1";
                StudentAnswer.selected_option := None;
                StudentAnswer.is_correct := false |} ]
      /\ toasts w = [warning "Time is up! Submitting your answers...";
                     success "Exam submitted successfully!"]).
Proof.
  split; vm_compute; repeat split; reflexivity.
Qed.

(** *** A failed insert of the attempt *)

(** Whenever the rejection arrives, it only reports and resets the flag. *)
Lemma rejected_whenever (w : World) (i : nat) (cl : State) (row : ExamResult.t) :
  inflight w !! i = Some (AwaitResult cl row) ->
  let w2 := respond i Error w in
  db w2 = db w
  /\ inflight w2 = delete i (inflight w)
  /\ state w2 = setSubmitting false (state w)
  /\ interval w2 = interval w
  /\ mounted w2 = mounted w
  /\ navigated w2 = navigated w
  /\ toasts w2 = toasts w ++ [error "Failed to submit exam"].
Proof.
  intros H. cbv zeta. unfold respond. rewrite H. simpl. auto 10.
Qed.

(** C5. When the store rejects the insert into [exam_results], nothing
    is written, no insert into [student_answers] is issued, the state
    (answers, current index, time left, the [submitting] flag) and the
    timer are what they were before the submission, the failure is
    reported, and a later submission goes through as the first would
    have.  The same holds when other events come between the request
    and its rejection: the rejection writes nothing, issues nothing,
    and changes only the [submitting] flag, which it resets. *)
Theorem rejected_attempt_leaves_no_trace now cl w u e :
  user cl = Some u -> exam cl = Some e -> submitting (state w) = false ->
  (let w2 := respond (length (inflight w)) Error (submitExam now cl w) in
   db w2 = db w
   /\ inflight w2 = inflight w
   /\ state w2 = state w
   /\ interval w2 = interval w
   /\ mounted w2 = mounted w
   /\ navigated w2 = navigated w
   /\ toasts w2 = toasts w ++ [error "Failed to submit exam"]
   /\ forall now' rid,
        exam_results
          (db (respond (length (inflight w2)) (Data rid) (submitExam now' cl w2)))
        = exam_results (db w) ++ [(rid, attempt now' u e cl)])
  /\ (forall (w' : World) (i : nat),
        inflight w' !! i = Some (AwaitResult cl (attempt now u e cl)) ->
        let w2 := respond i Error w' in
        db w2 = db w'
        /\ inflight w2 = delete i (inflight w')
        /\ state w2 = setSubmitting false (state w')
        /\ interval w2 = interval w'
        /\ toasts w2 = toasts w' ++ [error "Failed to submit exam"]).
Proof.
  intros Hu He Hs. split.
  - cbv zeta.
    rewrite (attempt_rejected now cl w u e Hu He).
    repeat (split; [reflexivity|]).
    split; [simpl; now apply setSubmitting_restore|].
    repeat (split; [reflexivity|]).
    intros now' rid.
    set (w2 := update (setSubmitting false)
                 (toast (error "Failed to submit exam") w)).
    destruct (attempt_accepted now' cl w2 u e rid Hu He) as (H1 & _ & _).
    exact H1.
  - intros w' i Hi.
    destruct (rejected_whenever w' i cl _ Hi) as (A & B & C & D & _ & _ & G).
    cbv zeta in *. auto.
Qed.

(** The three-question session with the insert rejected: tables empty
    as before, nothing in flight, the state as it was, one error toast. *)
Lemma rejected_attempt_leaves_no_trace_witness :
  let w2 := respond 0 Error (submitExam 5000 (state three_taken) three_taken) in
  db w2 = empty
  /\ inflight w2 = []
  /\ state w2 = state three_taken
  /\ toasts w2 = [error "Failed to submit exam"].
Proof.
  destruct (rejected_attempt_leaves_no_trace 5000 (state three_taken)
              three_taken "u1" (exam_of 20))
    as ((H1 & H2 & H3 & _ & _ & _ & H7 & _) & _);
    [reflexivity | reflexivity | reflexivity |].
  cbv zeta. split; [exact H1|]. split; [exact H2|]. split; [exact H3|exact H7].
Defined.

(** *** Re-entry *)

(** [submitExam] looks at [user] and [exam] only: with a submission
    already under way it starts another. *)
Lemma submitExam_has_no_guard now cl w u e :
  user cl = Some u -> exam cl = Some e -> submitting (state w) = true ->
  inflight (submitExam now cl w)
  = inflight w ++ [AwaitResult cl (attempt now u e cl)].
Proof.
  intros Hu He _. now rewrite (submitExam_proceeds now cl w u e Hu He).
Qed.

(** C1 fails on the code.  The student presses Submit with one second
    left; while that insert is under way ([submitting] is true, one
    request in flight) the interval fires, [handleAutoSubmit] calls
    [submitExam] again, and a second insert is issued.  With the store
    accepting both, the one session leaves two rows in [exam_results]. *)
Theorem overlapping_submissions_store_two_attempts :
  let w := run opened late_click in
  submitting (state w) = true
  /\ length (inflight w) = 1%nat
  /\ length (inflight (step w (Tick 60000))) = 2%nat
  /\ map fst (exam_results (db overlapped)) = ["r1"; "r2"]%string
  /\ map StudentAnswer.result_id (student_answers (db overlapped))
     = ["r1"; "r2"]%string.
Proof. vm_compute. repeat split; reflexivity. Qed.

(** *** The countdown *)

Lemma autoSubmissions_toast (t : Toast) (w : World) :
  autoSubmissions (toast t w)
  = (autoSubmissions w + (if is_warning t then 1 else 0))%nat.
Proof.
  unfold autoSubmissions, toast. simpl.
  rewrite List.filter_app, length_app. simpl.
  destruct (is_warning t); reflexivity.
Qed.

(** [submitExam] and the continuations leave no warning. *)
Lemma submitExam_toasts now cl w : toasts (submitExam now cl w) = toasts w.
Proof. unfold submitExam. destruct (user cl), (exam cl); reflexivity. Qed.

Lemma submitExam_interval now cl w : interval (submitExam now cl w) = interval w.
Proof. unfold submitExam. destruct (user cl), (exam cl); reflexivity. Qed.

Lemma submitExam_timeLeft now cl w :
  timeLeft (state (submitExam now cl w)) = timeLeft (state w).
Proof. unfold submitExam. destruct (user cl), (exam cl); reflexivity. Qed.

Lemma submitExam_loading now cl w :
  loading (state (submitExam now cl w)) = loading (state w).
Proof. unfold submitExam. destruct (user cl), (exam cl); reflexivity. Qed.

Lemma respond_autoSubmissions i r w :
  autoSubmissions (respond i r w) = autoSubmissions w.
Proof.
  unfold respond. destruct (inflight w !! i) as [p|]; [|reflexivity].
  destruct p as [cl row|cl rid rows]; [destruct r|]; simpl;
    try reflexivity;
    unfold autoSubmissions; simpl;
    rewrite List.filter_app, length_app; simpl; lia.
Qed.

Lemma respond_timer i r w :
  (interval (respond i r w) = interval w \/ interval (respond i r w) = None)
  /\ timeLeft (state (respond i r w)) = timeLeft (state w)
  /\ loading (state (respond i r w)) = loading (state w).
Proof.
  unfold respond. destruct (inflight w !! i) as [p|]; [|auto].
  destruct p as [cl row|cl rid rows]; [destruct r|]; simpl; auto.
Qed.

(** The tick that finds one second left: the warning, the submission,
    zero, and no interval any more. *)
Lemma tick_at_one now w :
  interval w <> None -> timeLeft (state w) <= 1 ->
  autoSubmissions (tick now w) = S (autoSubmissions w)
  /\ timeLeft (state (tick now w)) = 0
  /\ interval (tick now w) = None.
Proof.
  intros Hi Ht. unfold tick. destruct (interval w) as [cl|]; [|congruence].
  replace (timeLeft (state w) <=? 1) with true by (symmetry; lia).
  unfold timerEffect, handleAutoSubmit. simpl.
  split; [|split; reflexivity].
  unfold autoSubmissions. simpl. rewrite submitExam_toasts. simpl.
  rewrite List.filter_app, length_app. simpl. lia.
Qed.

(** Any earlier tick: one second less, nothing submitted, armed again. *)
Lemma tick_above_one now w :
  interval w <> None -> 1 < timeLeft (state w) ->
  autoSubmissions (tick now w) = autoSubmissions w
  /\ timeLeft (state (tick now w)) = timeLeft (state w) - 1
  /\ interval (tick now w) <> None
  /\ toasts (tick now w) = toasts w
  /\ inflight (tick now w) = inflight w.
Proof.
  intros Hi Ht. unfold tick. destruct (interval w) as [cl|]; [|congruence].
  replace (timeLeft (state w) <=? 1) with false by (symmetry; lia).
  unfold timerEffect. simpl.
  replace (timeLeft (state w) - 1 <=? 0) with false by (symmetry; lia).
  repeat split; congruence.
Qed.

Lemma tick_loading now w : loading (state (tick now w)) = loading (state w).
Proof.
  unfold tick. destruct (interval w); [|reflexivity].
  destruct (timeLeft (state w) <=? 1); simpl; [|reflexivity].
  unfold handleAutoSubmit. now rewrite submitExam_loading.
Qed.

Lemma tick_without_interval now w : interval w = None -> tick now w = w.
Proof. intros H. unfold tick. now rewrite H. Qed.

Lemma countdown_inv_mount u t0 d : countdown_inv (mount u t0 d).
Proof.
  unfold countdown_inv, autoSubmissions. simpl.
  repeat split; intros; try congruence; lia.
Qed.

Lemma countdown_inv_same (w w' : World) :
  countdown_inv w ->
  (interval w' = interval w \/ interval w' = None) ->
  timeLeft (state w') = timeLeft (state w) ->
  loading (state w') = loading (state w) ->
  autoSubmissions w' = autoSubmissions w ->
  countdown_inv w'.
Proof.
  intros (I1 & I2 & I3) Hi Ht Hl Ha. unfold countdown_inv.
  rewrite Ha, Ht, Hl. repeat split.
  - destruct Hi as [-> | ->]; [now apply I1 | reflexivity].
  - now apply I1.
  - destruct Hi as [Hi | Hi]; rewrite Hi in *; [now apply I2 | congruence].
  - destruct Hi as [Hi | Hi]; rewrite Hi in *; [now apply I2 | congruence].
  - exact I3.
Qed.

Lemma countdown_inv_step (w : World) (ev : Event) :
  countdown_inv w -> countdown_inv (step w ev).
Proof.
  intros Hinv. destruct ev as [e qs|now|q o|i| |now|i r| ]; simpl.
  - (* Loaded *)
    destruct (mounted w && loading (state w)) eqn:E; [|assumption].
    apply andb_true_iff in E as [_ El].
    destruct Hinv as (I1 & _ & _). destruct (I1 El) as [_ Ha].
    unfold countdown_inv, timerEffect, autoSubmissions in *. simpl.
    repeat split; try congruence; try lia.
    destruct (Exam.duration_minutes e * 60 <=? 0) eqn:E'; [congruence|lia].
  - (* Tick *)
    fold (tick now w).
    destruct (interval w) as [cl|] eqn:Ei;
      [|now rewrite tick_without_interval].
    destruct Hinv as (I1 & I2 & I3).
    destruct I2 as [Ha Ht]; [congruence|].
    assert (Hl : loading (state w) = false).
    { destruct (loading (state w)) eqn:El; [|reflexivity].
      destruct (I1 eq_refl). congruence. }
    unfold countdown_inv. rewrite tick_loading, Hl.
    destruct (Z_le_gt_dec (timeLeft (state w)) 1) as [H1|H1].
    + destruct (tick_at_one now w) as (A & B & C); [congruence|lia|].
      rewrite A, B, C, Ha. repeat split; intros; try congruence; lia.
    + destruct (tick_above_one now w) as (A & B & C & _ & _); [congruence|lia|].
      rewrite A, B, Ha. repeat split; intros; try congruence; lia.
  - (* SelectAnswer *)
    destruct (visible w); [|assumption].
    apply (countdown_inv_same w); auto.
  - (* GoToQuestion *)
    destruct (visible w); [|assumption]. unfold goToQuestion.
    destruct (_ && _); [|assumption].
    apply (countdown_inv_same w); auto.
  - (* OpenDialog *)
    destruct (canOpenDialog w); [|assumption].
    apply (countdown_inv_same w); auto.
  - (* ClickSubmit *)
    destruct (canClickSubmit w); [|assumption].
    apply (countdown_inv_same w); auto.
    + left. now rewrite submitExam_interval.
    + now rewrite submitExam_timeLeft.
    + now rewrite submitExam_loading.
    + unfold autoSubmissions. now rewrite submitExam_toasts.
  - (* Respond *)
    destruct (respond_timer i r w) as (A & B & C).
    apply (countdown_inv_same w); auto using respond_autoSubmissions.
  - (* Unmount *)
    apply (countdown_inv_same w); auto.
Qed.

Lemma countdown_inv_run (evs : list Event) (w : World) :
  countdown_inv w -> countdown_inv (run w evs).
Proof.
  revert w. induction evs as [|ev evs IH]; intros w H; [exact H|].
  simpl. apply IH. now apply countdown_inv_step.
Qed.





(** The timer expires with none of three questions answered: one
    attempt with no correct answer and score 0, three answer rows
    without a selection. *)
Example expired_unanswered :
  let w := run opened
             ([Loaded (exam_of 1) three]
              ++ map Tick (map (fun i => Z.of_nat i * 1000) (seq 1 60))
              ++ [Respond 0 (Data "r1"); Respond 0 (Data "")]) in
  map (fun r => (ExamResult.total_questions r.2,
                 ExamResult.correct_answers r.2,
                 ExamResult.score r.2))
      (exam_results (db w))
  = [(3, 0, Num (inject_Z 0))]
  /\ map StudentAnswer.selected_option (student_answers (db w))
     = [None; None; None]
  /\ map StudentAnswer.is_correct (student_answers (db w))
     = [false; false; false]
  /\ autoSubmissions w = 1%nat.
Proof. vm_compute. repeat split; reflexivity. Qed.

(** *** Selecting answers *)

(** X1. [selectAnswer] records the option under the question's id,
    replacing whatever was recorded for it and nothing else; the
    number of answered questions grows by one for a question not yet
    answered and stays for one that was; a second selection for the
    same question makes the first one as if it had not happened. *)
Theorem selectAnswer_records (q o : string) (w : World) :
  answers (state (selectAnswer q o w)) !! q = Some o
  /\ (forall q', q' <> q ->
        answers (state (selectAnswer q o w)) !! q' = answers (state w) !! q')
  /\ answeredCount (state (selectAnswer q o w))
     = (match answers (state w) !! q with
        | Some _ => answeredCount (state w)
        | None => S (answeredCount (state w))
        end)
  /\ (forall o', selectAnswer q o (selectAnswer q o' w) = selectAnswer q o w)
  /\ currentIndex (state (selectAnswer q o w)) = currentIndex (state w)
  /\ timeLeft (state (selectAnswer q o w)) = timeLeft (state w)
  /\ interval (selectAnswer q o w) = interval w
  /\ db (selectAnswer q o w) = db w
  /\ inflight (selectAnswer q o w) = inflight w.
Proof.
  unfold selectAnswer, answeredCount. simpl.
  split; [apply lookup_insert_eq|].
  split; [intros q' Hq; now apply lookup_insert_ne|].
  split.
  - destruct (answers (state w) !! q) as [o0|] eqn:E.
    + rewrite <- (insert_id (answers (state w)) q o0 E) at 2.
      rewrite <- (insert_delete_eq (answers (state w)) q o).
      rewrite <- (insert_delete_eq (answers (state w)) q o0).
      rewrite !map_size_insert_None by apply lookup_delete_eq. reflexivity.
    + now apply map_size_insert_None.
  - split; [|repeat split].
    intros o'. unfold update, setAnswers. simpl. now rewrite insert_insert_eq.
Qed.

(** X2. Nothing but a selection touches the recorded answers: loading,
    ticking, navigating, opening the dialog, submitting, the answers of
    the store and unmounting all leave them as they are. *)
Theorem answers_change_only_on_selection (w : World) (ev : Event) :
  (forall q o, ev <> SelectAnswer q o) ->
  answers (state (step w ev)) = answers (state w).
Proof.
  intros H. destruct ev as [e qs|now|q o|i| |now|i r| ]; simpl.
  - destruct (mounted w && loading (state w)); reflexivity.
  - unfold tick. destruct (interval w) as [cl|]; [|reflexivity].
    destruct (timeLeft (state w) <=? 1); simpl; [|reflexivity].
    unfold handleAutoSubmit, submitExam.
    destruct (user cl), (exam cl); reflexivity.
  - exfalso. now apply (H q o).
  - destruct (visible w); [|reflexivity]. unfold goToQuestion.
    destruct (_ && _); reflexivity.
  - destruct (canOpenDialog w); reflexivity.
  - destruct (canClickSubmit w); [|reflexivity]. unfold submitExam.
    destruct (user (state w)), (exam (state w)); reflexivity.
  - unfold respond. destruct (inflight w !! i) as [p|]; [|reflexivity].
    destruct p as [cl row|cl rid rows]; [destruct r|]; reflexivity.
  - reflexivity.
Qed.

Lemma answers_change_only_on_selection_witness :
  answers (state (step three_taken (Tick 1000))) = answers (state three_taken)
  /\ answers (state (step three_taken (GoToQuestion 2)))
     = answers (state three_taken).
Proof.
  split; apply answers_change_only_on_selection; intros q o; discriminate.
Defined.

(** *** The current question *)






(** *** The clock *)

Lemma submitExam_exam now cl w :
  exam (state (submitExam now cl w)) = exam (state w).
Proof. unfold submitExam. destruct (user cl), (exam cl); reflexivity. Qed.

Lemma clock_in_range_same (s s' : State) :
  exam s' = exam s -> timeLeft s' = timeLeft s ->
  clock_in_range s -> clock_in_range s'.
Proof. unfold clock_in_range. now intros -> ->. Qed.

Lemma clock_in_range_step (w : World) (ev : Event) :
  clock_in_range (state w) -> clock_in_range (state (step w ev)).
Proof.
  intros I.
  destruct ev as [e qs|now|q o|i| |now|i r| ]; simpl.
  - destruct (mounted w && loading (state w)); [|exact I].
    unfold clock_in_range. simpl. lia.
  - unfold tick. destruct (interval w) as [cl|]; [|exact I].
    unfold clock_in_range in *.
    destruct (timeLeft (state w) <=? 1) eqn:E; simpl.
    + unfold handleAutoSubmit. rewrite submitExam_exam. simpl.
      destruct (exam (state w)); lia.
    + destruct (exam (state w)); lia.
  - destruct (visible w); exact I.
  - destruct (visible w); [|exact I]. unfold goToQuestion.
    destruct (_ && _); exact I.
  - destruct (canOpenDialog w); exact I.
  - destruct (canClickSubmit w); [|exact I].
    apply (clock_in_range_same (state w)); [| |exact I].
    + now rewrite submitExam_exam.
    + now rewrite submitExam_timeLeft.
  - unfold respond. destruct (inflight w !! i) as [p|]; [|exact I].
    destruct p as [cl row|cl rid rows]; [destruct r|]; exact I.
  - exact I.
Qed.

Lemma clock_in_range_run (evs : list Event) (w : World) :
  clock_in_range (state w) -> clock_in_range (state (run w evs)).
Proof.
  revert w. induction evs as [|ev evs IH]; intros w H; [exact H|].
  simpl. apply IH. now apply clock_in_range_step.
Qed.

(** X4. The clock never shows less than zero or more than the exam
    allows: before the exam is loaded [timeLeft] is 0, afterwards it
    lies between 0 and [duration_minutes * 60] for a duration that is
    not negative; and an interval is armed only with time left, so an
    exam of duration 0 or less never counts down. *)
Theorem clock_stays_in_range u t0 d (evs : list Event) :
  let w := run (mount u t0 d) evs in
  (exam (state w) = None -> timeLeft (state w) = 0)
  /\ (forall e, exam (state w) = Some e ->
        0 <= Exam.duration_minutes e ->
        0 <= timeLeft (state w) <= Exam.duration_minutes e * 60)
  /\ (forall e, exam (state w) = Some e ->
        Exam.duration_minutes e <= 0 -> interval w = None)
  /\ (exam (state w) = None -> interval w = None).
Proof.
  intros w.
  assert (I : clock_in_range (state w))
    by (apply clock_in_range_run; reflexivity).
  destruct (countdown_inv_run evs (mount u t0 d) (countdown_inv_mount u t0 d))
    as (_ & I2 & _). fold w in I2.
  unfold clock_in_range in I.
  split; [intros H; now rewrite H in I|].
  split; [intros e H Hd; rewrite H in I; lia|].
  split.
  - intros e H Hd. rewrite H in I.
    destruct (interval w) eqn:Ei; [|reflexivity].
    destruct I2 as [_ Ht]; [congruence|]. lia.
  - intros H. rewrite H in I.
    destruct (interval w) eqn:Ei; [|reflexivity].
    destruct I2 as [_ Ht]; [congruence|]. lia.
Qed.

(** Twenty minutes and three ticks: 1197 seconds, within 0 and 1200. *)
Lemma clock_stays_in_range_witness :
  let w := run (mount (Some "u1"%string) 0 empty)
             [Loaded (exam_of 20) three; Tick 1000; Tick 2000; Tick 3000] in
  0 <= timeLeft (state w) <= 1200 /\ timeLeft (state w) = 1197.
Proof.
  destruct (clock_stays_in_range (Some "u1"%string) 0 empty
              [Loaded (exam_of 20) three; Tick 1000; Tick 2000; Tick 3000])
    as (_ & H & _).
  split; [|reflexivity].
  apply (H (exam_of 20)); [reflexivity|]. simpl. lia.
Defined.

(** *** The closure of the interval *)

Lemma submitExam_frame now cl w :
  user (state (submitExam now cl w)) = user (state w)
  /\ exam (state (submitExam now cl w)) = exam (state w)
  /\ questions (state (submitExam now cl w)) = questions (state w)
  /\ startTime (state (submitExam now cl w)) = startTime (state w)
  /\ answers (state (submitExam now cl w)) = answers (state w)
  /\ db (submitExam now cl w) = db w.
Proof. unfold submitExam. destruct (user cl), (exam cl); simpl; auto 10. Qed.

Lemma closure_current_same (w w' : World) :
  closure_current w ->
  (interval w' = interval w \/ interval w' = None) ->
  user (state w') = user (state w) -> exam (state w') = exam (state w) ->
  questions (state w') = questions (state w) ->
  startTime (state w') = startTime (state w) ->
  closure_current w'.
Proof.
  intros I Hi Hu He Hq Hs cl Hcl. rewrite Hu, He, Hq, Hs.
  destruct Hi as [Hi|Hi]; rewrite Hi in Hcl; [now apply I|discriminate].
Qed.

Lemma closure_current_armed (w : World) : closure_current (timerEffect w).
Proof.
  intros cl. unfold timerEffect. simpl.
  destruct (timeLeft (state w) <=? 0); [discriminate|].
  intros [= <-]. auto.
Qed.

Lemma closure_current_step (w : World) (ev : Event) :
  closure_current w -> closure_current (step w ev).
Proof.
  intros I. destruct ev as [e qs|now|q o|i| |now|i r| ]; simpl.
  - destruct (mounted w && loading (state w)); [|exact I].
    apply closure_current_armed.
  - unfold tick. destruct (interval w) as [cl|]; [|exact I].
    destruct (timeLeft (state w) <=? 1); apply closure_current_armed.
  - destruct (visible w); [|exact I].
    apply (closure_current_same w); auto.
  - destruct (visible w); [|exact I]. unfold goToQuestion.
    destruct (_ && _); [|exact I]. apply (closure_current_same w); auto.
  - destruct (canOpenDialog w); [|exact I].
    apply (closure_current_same w); auto.
  - destruct (canClickSubmit w); [|exact I].
    destruct (submitExam_frame now (state w)
                (update (setShowSubmitDialog false) w)) as (A & B & C & D & _).
    apply (closure_current_same w); auto.
    left. now rewrite submitExam_interval.
  - unfold respond. destruct (inflight w !! i) as [p|]; [|exact I].
    destruct p as [cl row|cl rid rows]; [destruct r|]; simpl;
      apply (closure_current_same w); auto.
  - apply (closure_current_same w); auto.
Qed.

Lemma closure_current_run (evs : list Event) (w : World) :
  closure_current w -> closure_current (run w evs).
Proof.
  revert w. induction evs as [|ev evs IH]; intros w H; [exact H|].
  simpl. apply IH. now apply closure_current_step.
Qed.

Lemma user_fixed_step (w : World) (ev : Event) :
  user (state (step w ev)) = user (state w).
Proof.
  destruct ev as [e qs|now|q o|i| |now|i r| ]; simpl.
  - destruct (mounted w && loading (state w)); reflexivity.
  - unfold tick. destruct (interval w) as [cl|]; [|reflexivity].
    destruct (timeLeft (state w) <=? 1); simpl; [|reflexivity].
    unfold handleAutoSubmit.
    now destruct (submitExam_frame now cl
                    (toast (warning "Time is up! Submitting your answers...")
                           (clearInterval w))) as (-> & _).
  - destruct (visible w); reflexivity.
  - destruct (visible w); [|reflexivity]. unfold goToQuestion.
    destruct (_ && _); reflexivity.
  - destruct (canOpenDialog w); reflexivity.
  - destruct (canClickSubmit w); [|reflexivity].
    now destruct (submitExam_frame now (state w)
                    (update (setShowSubmitDialog false) w)) as (-> & _).
  - unfold respond. destruct (inflight w !! i) as [p|]; [|reflexivity].
    destruct p as [cl row|cl rid rows]; [destruct r|]; reflexivity.
  - reflexivity.
Qed.

Lemma user_fixed_run (evs : list Event) (w : World) :
  user (state (run w evs)) = user (state w).
Proof.
  revert w. induction evs as [|ev evs IH]; intros w; [reflexivity|].
  simpl. now rewrite IH, user_fixed_step.
Qed.

(** *** Which answers a submission counts *)

Lemma run_app (w : World) (evs evs' : list Event) :
  run w (evs ++ evs') = run (run w evs) evs'.
Proof. apply fold_left_app. Qed.

(** The attempt built from a render counts the answers of that
    render. *)
Lemma attempt_scored now u e (cl : State) :
  questions cl <> [] -> Z.of_nat (length (questions cl)) < 2 ^ 32 ->
  scored_from cl (attempt now u e cl).
Proof.
  intros Hq Hlt. unfold scored_from, recorded_correct.
  set (N := Z.of_nat (length (questions cl))) in *.
  set (c := Z.of_nat (length (List.filter (answered_correctly (answers cl))
                                          (questions cl)))).
  pose proof (length_questions_pos cl Hq) as Hn. fold N in Hn.
  pose proof (correctCount_bounds (questions cl) (answers cl)) as Hc.
  pose proof (correctCount_filter (questions cl) (answers cl)) as Hf.
  fold c in Hf. fold N in Hc. rewrite Hf in Hc.
  assert (Hs : - N <= 2 * N * score_int c N - 200 * c <= N)
    by (apply score_int_nearest; lia).
  simpl. fold N. rewrite Hf.
  split; [reflexivity|]. split; [reflexivity|].
  exists (score_int c N).
  split; [now apply score_of_int|].
  split; [exact Hs|].
  now apply nearest_exact.
Qed.

(** [scored_from] looks at the questions and the answers only. *)
Lemma scored_from_same (s s' : State) (a : ExamResult.t) :
  questions s = questions s' -> answers s = answers s' ->
  scored_from s a -> scored_from s' a.
Proof.
  unfold scored_from, recorded_correct. intros -> ->. auto.
Qed.

(** In a session an armed interval closed over a render with the
    session's user and the exam loaded. *)
Lemma armed_closure u0 t0 d (evs : list Event) (cl : State) :
  interval (run (mount u0 t0 d) evs) = Some cl ->
  user cl = u0 /\ is_Some (exam cl)
  /\ questions cl = questions (state (run (mount u0 t0 d) evs)).
Proof.
  intros Hi. set (w := run (mount u0 t0 d) evs) in *.
  assert (I : closure_current w).
  { apply closure_current_run. intros c. simpl. discriminate. }
  destruct (I cl Hi) as (Hu & He & Hq & _).
  assert (C : countdown_inv w) by apply countdown_inv_run, countdown_inv_mount.
  assert (R : clock_in_range (state w))
    by (apply clock_in_range_run; reflexivity).
  split; [rewrite Hu; apply user_fixed_run|]. split; [|exact Hq].
  rewrite He. destruct C as (_ & C & _).
  destruct C as (_ & Ht); [congruence|].
  unfold clock_in_range in R.
  destruct (exam (state w)); [eauto|lia].
Qed.

(** Every tick arms the interval afresh, and only a selection makes
    the answers of its render differ from the recorded ones. *)
Lemma answers_current_armed (w : World) : answers_current (timerEffect w).
Proof.
  intros cl. unfold timerEffect. simpl.
  destruct (timeLeft (state w) <=? 0); [discriminate|].
  now intros [= <-].
Qed.

Lemma answers_current_tick now (w : World) :
  answers_current w -> answers_current (step w (Tick now)).
Proof.
  intros I. simpl. unfold tick. destruct (interval w) as [cl|]; [|exact I].
  destruct (timeLeft (state w) <=? 1); apply answers_current_armed.
Qed.

Lemma answers_current_same (w w' : World) :
  answers_current w ->
  (interval w' = interval w \/ interval w' = None) ->
  answers (state w') = answers (state w) ->
  answers_current w'.
Proof.
  intros I Hi Ha cl Hcl. rewrite Ha.
  destruct Hi as [Hi|Hi]; rewrite Hi in Hcl; [now apply I|discriminate].
Qed.

Lemma answers_current_step (w : World) (ev : Event) :
  (forall q o, ev <> SelectAnswer q o) ->
  answers_current w -> answers_current (step w ev).
Proof.
  intros Hev I. destruct ev as [e qs|now|q o|i| |now|i r| ].
  - simpl. destruct (mounted w && loading (state w)); [|exact I].
    apply answers_current_armed.
  - now apply answers_current_tick.
  - now destruct (Hev q o).
  - simpl. destruct (visible w); [|exact I]. unfold goToQuestion.
    destruct (_ && _); [|exact I]. apply (answers_current_same w); auto.
  - simpl. destruct (canOpenDialog w); [|exact I].
    apply (answers_current_same w); auto.
  - simpl. destruct (canClickSubmit w); [|exact I].
    destruct (submitExam_frame now (state w)
                (update (setShowSubmitDialog false) w))
      as (_ & _ & _ & _ & A & _).
    apply (answers_current_same w); auto.
    left. now rewrite submitExam_interval.
  - simpl. unfold respond. destruct (inflight w !! i) as [p|]; [|exact I].
    destruct p as [cl row|cl rid rows]; [destruct r|]; simpl;
      apply (answers_current_same w); auto.
  - apply (answers_current_same w); auto.
Qed.

Lemma answers_current_after_tick now (w : World) (evs : list Event) :
  (forall q o, ~ In (SelectAnswer q o) evs) ->
  answers_current (run w (Tick now :: evs)).
Proof.
  intros Hev. simpl run. fold (run (tick now w) evs).
  assert (I : answers_current (tick now w)).
  { unfold tick. destruct (interval w) as [cl|] eqn:E.
    - destruct (timeLeft (state w) <=? 1); apply answers_current_armed.
    - intros cl. rewrite E. discriminate. }
  revert I Hev. generalize (tick now w). clear w.
  induction evs as [|ev evs IH]; intros w I Hev; [exact I|].
  simpl run. fold (run (step w ev) evs). apply IH.
  - apply answers_current_step; [|exact I].
    intros q o ->. apply (Hev q o). now left.
  - intros q o Hin. apply (Hev q o). now right.
Qed.

(** C2, amended.  Over a non-empty question list, the attempt stored
    for a submission made by hand has [total_questions = N],
    [correct_answers] the number of questions whose recorded answer is
    their correct option, and for score an integer nearest to
    [100 * correct_answers / N]: the exact rounding except, possibly,
    when that quotient lies halfway between two integers, where it is
    the rounding or the integer below.  The attempt stored for the
    submission of the last tick is the same function of the questions
    and of the answers of the render that armed the interval; it counts
    the recorded answers when these are the answers of that render,
    which they are when no answer was selected since the tick
    before. *)
Theorem attempt_score_nearest :
  (forall (w : World) (now : Z) (u rid : string),
      canClickSubmit w = true -> user (state w) = Some u ->
      Z.of_nat (length (questions (state w))) < 2 ^ 32 ->
      exists a,
        exam_results
          (db (run w [ClickSubmit now;
                      Respond (length (inflight w)) (Data rid)]))
        = exam_results (db w) ++ [(rid, a)]
        /\ scored_from (state w) a)
  /\ (forall (u : string) (t0 : Z) (d : Database) (evs : list Event)
             (now : Z) (cl : State) (rid : string),
        let w := run (mount (Some u) t0 d) evs in
        interval w = Some cl -> timeLeft (state w) <= 1 ->
        questions (state w) <> [] ->
        Z.of_nat (length (questions (state w))) < 2 ^ 32 ->
        exists a,
          exam_results
            (db (run w [Tick now;
                        Respond (length (inflight w)) (Data rid)]))
          = exam_results (db w) ++ [(rid, a)]
          /\ questions cl = questions (state w)
          /\ scored_from cl a
          /\ (answers cl = answers (state w) -> scored_from (state w) a))
  /\ (forall (w0 : World) (now0 : Z) (evs : list Event) (cl : State),
        (forall q o, ~ In (SelectAnswer q o) evs) ->
        let w := run w0 (Tick now0 :: evs) in
        interval w = Some cl -> answers cl = answers (state w))
  /\ (forall (u : string) (t0 : Z) (d : Database) (evs0 : list Event)
             (now0 : Z) (evs : list Event) (now : Z) (rid : string),
        (forall q o, ~ In (SelectAnswer q o) evs) ->
        let w := run (mount (Some u) t0 d) (evs0 ++ Tick now0 :: evs) in
        interval w <> None -> timeLeft (state w) <= 1 ->
        questions (state w) <> [] ->
        Z.of_nat (length (questions (state w))) < 2 ^ 32 ->
        exists a,
          exam_results
            (db (run w [Tick now;
                        Respond (length (inflight w)) (Data rid)]))
          = exam_results (db w) ++ [(rid, a)]
          /\ scored_from (state w) a).
Proof.
  assert (P3 : forall (w0 : World) (now0 : Z) (evs : list Event) (cl : State),
             (forall q o, ~ In (SelectAnswer q o) evs) ->
             let w := run w0 (Tick now0 :: evs) in
             interval w = Some cl -> answers cl = answers (state w)).
  { intros w0 now0 evs cl Hev w Hi.
    now apply (answers_current_after_tick now0 w0 evs Hev). }
  assert (P2 : forall (u : string) (t0 : Z) (d : Database) (evs : list Event)
             (now : Z) (cl : State) (rid : string),
        let w := run (mount (Some u) t0 d) evs in
        interval w = Some cl -> timeLeft (state w) <= 1 ->
        questions (state w) <> [] ->
        Z.of_nat (length (questions (state w))) < 2 ^ 32 ->
        exists a,
          exam_results
            (db (run w [Tick now;
                        Respond (length (inflight w)) (Data rid)]))
          = exam_results (db w) ++ [(rid, a)]
          /\ questions cl = questions (state w)
          /\ scored_from cl a
          /\ (answers cl = answers (state w) -> scored_from (state w) a));
    [|split; [|split; [exact P2|split; [exact P3|]]]].
  3:{ intros u t0 d evs0 now0 evs now rid Hev w Hi Ht Hq Hlt.
      destruct (interval w) as [cl|] eqn:E; [|congruence].
      destruct (P2 u t0 d (evs0 ++ Tick now0 :: evs) now cl rid E Ht Hq Hlt)
        as (a & H1 & _ & _ & H2).
      exists a. split; [exact H1|]. apply H2.
      unfold w in E. rewrite run_app in E.
      unfold w. rewrite run_app.
      exact (P3 (run (mount (Some u) t0 d) evs0) now0 evs cl Hev E). }
  2:{ intros w now u rid Hc Hu Hlt.
    pose proof Hc as Hv. unfold canClickSubmit, visible in Hv.
    repeat (apply andb_prop in Hv; destruct Hv as [Hv ?]).
    match goal with H : bool_decide (is_Some _) = true |- _ =>
      apply bool_decide_eq_true in H; destruct H as [e He] end.
    match goal with H : negb (bool_decide (_ = [])) = true |- _ =>
      apply negb_true_iff, bool_decide_eq_false in H; rename H into Hq end.
    change (run w [ClickSubmit now; Respond (length (inflight w)) (Data rid)])
      with (respond (length (inflight w)) (Data rid) (step w (ClickSubmit now))).
    unfold step. rewrite Hc.
    destruct (attempt_accepted now (state w)
                (update (setShowSubmitDialog false) w) u e rid Hu He)
      as (H1 & _ & _).
    exists (attempt now u e (state w)). split; [exact H1|].
    now apply attempt_scored. }
  - intros u t0 d evs now cl rid w Hi Ht Hq Hlt.
    destruct (armed_closure (Some u) t0 d evs cl Hi) as (Hu & [e He] & Hqs).
    fold w in Hqs.
    change (run w [Tick now; Respond (length (inflight w)) (Data rid)])
      with (respond (length (inflight w)) (Data rid) (tick now w)).
    assert (Hin : inflight (tick now w)
                  = inflight w ++ [AwaitResult cl (attempt now u e cl)]).
    { unfold tick. rewrite Hi.
      destruct (Z.leb_spec (timeLeft (state w)) 1) as [_|]; [|lia].
      unfold handleAutoSubmit.
      rewrite (submitExam_proceeds now cl _ u e Hu He). reflexivity. }
    assert (Hdb : db (tick now w) = db w).
    { unfold tick. rewrite Hi.
      destruct (Z.leb_spec (timeLeft (state w)) 1) as [_|]; [|lia].
      unfold handleAutoSubmit.
      rewrite (submitExam_proceeds now cl _ u e Hu He). reflexivity. }
    rewrite (respond_at_end _ _ _ _ Hin).
    assert (S : scored_from cl (attempt now u e cl))
      by (apply attempt_scored; rewrite Hqs; assumption).
    exists (attempt now u e cl). simpl. rewrite Hdb.
    split; [reflexivity|]. split; [exact Hqs|]. split; [exact S|].
    intros Ha. now apply (scored_from_same cl).
Qed.

(** One of three right, submitted by hand, gives [{total_questions: 3,
    correct_answers: 1, score: 33}]; so does the last tick of the
    one-question exam answered at once, with 1, 1 and 100. *)
Lemma attempt_score_nearest_witness :
  (exists a,
     exam_results
       (db (run three_ready [ClickSubmit 5000; Respond 0 (Data "r1")]))
     = [("r1", a)]
     /\ ExamResult.total_questions a = 3
     /\ ExamResult.correct_answers a = 1
     /\ ExamResult.score a = Num (inject_Z 33))
  /\ (exists a,
        exam_results
          (db (run (run opened (last_second [SelectAnswer "q1" "A"]))
                   [Tick 60000; Respond 0 (Data "r1")]))
        = [("r1", a)]
        /\ ExamResult.total_questions a = 1
        /\ ExamResult.correct_answers a = 1
        /\ ExamResult.score a = Num (inject_Z 100)).
Proof.
  destruct attempt_score_nearest as (A & B & _). split.
  - destruct (A three_ready 5000 "u1" "r1")
      as (a & H1 & H2 & H3 & s & H4 & H5 & _);
      [vm_compute; reflexivity | reflexivity | vm_compute; reflexivity |].
    exists a. split; [exact H1|]. split; [exact H2|]. split; [exact H3|].
    rewrite H4. f_equal. f_equal.
    change (Z.of_nat (length (questions (state three_ready)))) with 3 in H5.
    change (recorded_correct (state three_ready)) with 1 in H5.
    lia.
  - set (w := run opened (last_second [SelectAnswer "q1" "A"])).
    destruct (B "u1" 0 empty (last_second [SelectAnswer "q1" "A"]) 60000
                (state w) "r1")
      as (a & H1 & _ & _ & H2);
      [vm_compute; reflexivity | vm_compute; discriminate
       | vm_compute; discriminate | vm_compute; reflexivity |].
    change (answers (state w) = answers (state w) -> scored_from (state w) a)
      in H2.
    destruct (H2 eq_refl) as (H3 & H4 & s & H5 & H6 & _).
    exists a. split; [exact H1|]. split; [exact H3|]. split; [exact H4|].
    rewrite H5. f_equal. f_equal.
    assert (E1 : Z.of_nat (length (questions (state w))) = 1)
      by (vm_compute; reflexivity).
    assert (E2 : recorded_correct (state w) = 1) by (vm_compute; reflexivity).
    rewrite E1, E2 in H6. lia.
Defined.

(** *** Automatic submission *)










End TakeExamFacts.

(** ** The exam editor *)

Module ExamEditorFacts.
Import ExamEditor EditorScenarios.

(** C8. Choosing a category sets the duration to that category's
    default, 40 minutes for basic, 20 for prelims and 30 for mains,
    records the category, and leaves title, description and the active
    flag alone. *)
Theorem category_sets_default_duration (c : ExamCategory) (form : ExamForm) :
  duration_minutes (handleCategoryChange c form)
  = match c with basic => 40 | prelims => 20 | mains => 30 end
  /\ category (handleCategoryChange c form) = c
  /\ title (handleCategoryChange c form) = title form
  /\ description (handleCategoryChange c form) = description form
  /\ is_active (handleCategoryChange c form) = is_active form.
Proof. destruct c; repeat split. Qed.

(** *** Saving *)

Lemma questionsToInsert_length examId qs :
  length (questionsToInsert examId qs) = length qs.
Proof. unfold questionsToInsert. apply length_imap. Qed.

Lemma questionsToInsert_lookup examId qs (i : nat) (q : Question.t) :
  qs !! i = Some q ->
  questionsToInsert examId qs !! i
  = Some {| QuestionRow.exam_id := examId;
            QuestionRow.question_text := Question.question_text q;
            QuestionRow.option_a := Question.option_a q;
            QuestionRow.option_b := Question.option_b q;
            QuestionRow.option_c := Question.option_c q;
            QuestionRow.option_d := Question.option_d q;
            QuestionRow.correct_option := Question.correct_option q;
            QuestionRow.order_index := Z.of_nat i |}.
Proof.
  intros H. unfold questionsToInsert. rewrite list_lookup_imap, H. reflexivity.
Qed.

(** The positions written are 0, 1, ..., n - 1. *)
Lemma questionsToInsert_order examId qs :
  map QuestionRow.order_index (questionsToInsert examId qs)
  = map Z.of_nat (seq 0 (length qs)).
Proof.
  apply list_eq. intros i. rewrite !list_lookup_fmap.
  destruct (qs !! i) as [q|] eqn:E.
  - rewrite (questionsToInsert_lookup examId qs i q E). simpl.
    rewrite lookup_seq_lt by (eapply lookup_lt_Some; eauto). reflexivity.
  - apply lookup_ge_None in E.
    rewrite (lookup_ge_None_2 (questionsToInsert examId qs))
      by (rewrite questionsToInsert_length; lia).
    rewrite lookup_seq_ge by lia. reflexivity.
Qed.
Lemma filter_all {A} (f : A -> bool) (l : list A) :
  (forall x, In x l -> f x = true) -> List.filter f l = l.
Proof.
  induction l as [|x l IH]; intros H; [reflexivity|]. simpl.
  rewrite (H x) by (left; reflexivity). f_equal. apply IH.
  intros y Hy. apply H. now right.
Qed.

Lemma filter_none {A} (f : A -> bool) (l : list A) :
  List.filter f (List.filter (fun x => negb (f x)) l) = [].
Proof.
  induction l as [|x l IH]; [reflexivity|]. simpl.
  destruct (f x) eqn:E; simpl; [exact IH|]. now rewrite E.
Qed.

Lemma questionsToInsert_of_exam examId qs :
  List.filter (of_exam examId) (questionsToInsert examId qs)
  = questionsToInsert examId qs.
Proof.
  apply filter_all. intros r Hr.
  apply list_elem_of_In, list_elem_of_lookup in Hr as [i Hi].
  unfold questionsToInsert in Hi. rewrite list_lookup_imap in Hi.
  destruct (qs !! i); simpl in Hi; [|discriminate].
  injection Hi as <-. unfold of_exam. simpl. now apply bool_decide_eq_true.
Qed.

(** X6. A save in which the store accepts every request leaves, as
    the question rows of the exam, exactly the rows made from the
    editor's list, the i-th with [order_index = i] whatever order index
    the editor's question carried.  When editing, the rows the exam had
    before are deleted first and the rows of other exams stay; when
    creating, the rows are appended under the new exam's id. *)
Theorem saved_questions_are_the_editor_list (st : Store) (ed : Editor) (d : Database) :
  validate ed = None -> insert_questions st = true ->
  (forall examId,
      isEditing ed = true -> id ed = Some examId ->
      update_exam st = true -> delete_questions st = true ->
      let out := handleSave st ed d in
      questions (db_after out)
      = List.filter (fun r => negb (of_exam examId r)) (questions d)
        ++ questionsToInsert examId (editor_questions ed)
      /\ List.filter (of_exam examId) (questions (db_after out))
         = questionsToInsert examId (editor_questions ed)
      /\ toasts out = [success "Exam updated successfully"])
  /\ (forall examId,
      isEditing ed = false -> insert_exam st = Some examId ->
      List.filter (of_exam examId) (questions d) = [] ->
      let out := handleSave st ed d in
      questions (db_after out)
      = questions d ++ questionsToInsert examId (editor_questions ed)
      /\ List.filter (of_exam examId) (questions (db_after out))
         = questionsToInsert examId (editor_questions ed)
      /\ toasts out = [success "Exam created successfully"])
  /\ (forall examId,
      length (questionsToInsert examId (editor_questions ed))
      = length (editor_questions ed)
      /\ map QuestionRow.order_index
           (questionsToInsert examId (editor_questions ed))
         = map Z.of_nat (seq 0 (length (editor_questions ed)))
      /\ forall (i : nat) (q : Question.t),
           editor_questions ed !! i = Some q ->
           questionsToInsert examId (editor_questions ed) !! i
           = Some {| QuestionRow.exam_id := examId;
                     QuestionRow.question_text := Question.question_text q;
                     QuestionRow.option_a := Question.option_a q;
                     QuestionRow.option_b := Question.option_b q;
                     QuestionRow.option_c := Question.option_c q;
                     QuestionRow.option_d := Question.option_d q;
                     QuestionRow.correct_option := Question.correct_option q;
                     QuestionRow.order_index := Z.of_nat i |}).
Proof.
  intros Hv Hins. split; [|split].
  - intros examId He Hid Hu Hd. cbv zeta.
    unfold handleSave, saveQuestions. rewrite Hv, He, Hid, Hu, Hd, Hins. simpl.
    split; [reflexivity|]. split; [|reflexivity].
    rewrite List.filter_app, questionsToInsert_of_exam.
    unfold of_exam. rewrite (filter_none (of_exam examId)). reflexivity.
  - intros examId He Hi Hfresh. cbv zeta.
    unfold handleSave, saveQuestions. rewrite Hv, He, Hi, Hins. simpl.
    split; [reflexivity|]. split; [|reflexivity].
    rewrite List.filter_app, questionsToInsert_of_exam, Hfresh. reflexivity.
  - intros examId.
    split; [apply questionsToInsert_length|].
    split; [apply questionsToInsert_order|].
    intros i q. apply questionsToInsert_lookup.
Qed.

(** Saving the edited [e1]: its three old rows are gone, the three new
    ones sit at 0, 1, 2, and the row of [e2] is untouched. *)
Lemma saved_questions_are_the_editor_list_witness :
  let d' := db_after (handleSave accepting editing stored) in
  map QuestionRow.question_text (List.filter (of_exam "e1") (questions d'))
  = ["one"; "three"; "new"]%string
  /\ map QuestionRow.order_index (List.filter (of_exam "e1") (questions d'))
     = [0; 1; 2]
  /\ List.filter (of_exam "e2") (questions d') = [row "e2" "other" 0].
Proof.
  destruct (saved_questions_are_the_editor_list accepting editing stored)
    as (H & _ & _); [reflexivity | reflexivity |].
  destruct (H "e1"%string) as (H1 & H2 & _); try reflexivity.
  cbv zeta in *. rewrite H2, H1. repeat split.
Defined.

(** X7. Whatever the store answers to the delete, an edit whose update
    and insert are accepted is reported as saved; when the delete was
    rejected the rows the exam had are all still there, followed by the
    new ones. *)
Theorem rejected_delete_keeps_the_old_rows (st : Store) (ed : Editor)
      (d : Database) (examId : string) :
  validate ed = None -> isEditing ed = true -> id ed = Some examId ->
  update_exam st = true -> insert_questions st = true ->
  let out := handleSave st ed d in
  toasts out = [success "Exam updated successfully"]
  /\ navigated out = ["/admin/exams"%string]
  /\ (delete_questions st = false ->
      questions (db_after out)
      = questions d ++ questionsToInsert examId (editor_questions ed)
      /\ List.filter (of_exam examId) (questions (db_after out))
         = List.filter (of_exam examId) (questions d)
           ++ questionsToInsert examId (editor_questions ed)).
Proof.
  intros Hv He Hid Hu Hins. cbv zeta.
  unfold handleSave, saveQuestions. rewrite Hv, He, Hid, Hu, Hins. simpl.
  split; [reflexivity|]. split; [reflexivity|].
  intros ->. split; [reflexivity|].
  now rewrite List.filter_app, questionsToInsert_of_exam.
Qed.

(** The edited [e1] with the delete rejected: six rows afterwards. *)
Lemma rejected_delete_keeps_the_old_rows_witness :
  let out := handleSave delete_rejected editing stored in
  toasts out = [success "Exam updated successfully"]
  /\ length (List.filter (of_exam "e1") (questions (db_after out))) = 6%nat.
Proof.
  destruct (rejected_delete_keeps_the_old_rows delete_rejected editing stored
              "e1")
    as (H1 & _ & H2); try reflexivity.
  destruct (H2 eq_refl) as (_ & H3).
  cbv zeta in *. split; [exact H1|]. rewrite H3. reflexivity.
Defined.

(** C10.  Editing [e1], which has three stored questions, with three
    questions in the editor, when the store rejects the delete of the
    old rows and accepts the update and the insert: [handleSave] does
    not look at the answer of the delete, so the save is reported as
    successful and the exam is left with six rows, the three old ones
    followed by the three new ones, at the positions 0, 1, 2, 0, 1, 2.
    A rejected update or a rejected insert, whose answers are looked
    at, is reported as a failure. *)
Theorem rejected_delete_is_reported_as_saved :
  (let out := handleSave delete_rejected editing stored in
   toasts out = [success "Exam updated successfully"]
   /\ navigated out = ["/admin/exams"%string]
   /\ map QuestionRow.question_text
          (List.filter (of_exam "e1") (questions (db_after out)))
      = ["one"; "two"; "three"; "one"; "three"; "new"]%string
   /\ map QuestionRow.order_index
          (List.filter (of_exam "e1") (questions (db_after out)))
      = [0; 1; 2; 0; 1; 2]
   /\ map Question.question_text (editor_questions editing)
      = ["one"; "three"; "new"]%string)
  /\ (let out := handleSave update_rejected editing stored in
      toasts out = [error "Failed to save exam"] /\ navigated out = []
      /\ db_after out = stored)
  /\ (let out := handleSave insert_rejected editing stored in
      toasts out = [error "Failed to save exam"] /\ navigated out = []).
Proof.
  split; [|split]; vm_compute; repeat split; reflexivity.
Qed.

(** *** Validation *)

Lemma first_incomplete_spec (qs : list Question.t) (k : nat) :
  match first_incomplete k qs with
  | Some j =>
      exists i q, j = (k + i)%nat /\ qs !! i = Some q /\ incomplete q = true
                  /\ forall i' q', (i' < i)%nat -> qs !! i' = Some q' ->
                                   incomplete q' = false
  | None => forall i q, qs !! i = Some q -> incomplete q = false
  end.
Proof.
  revert k. induction qs as [|q qs IH]; intros k; simpl.
  - intros i q H. now rewrite lookup_nil in H.
  - destruct (incomplete q) eqn:E.
    + exists 0%nat, q. repeat split; [lia|assumption|]. intros; lia.
    + specialize (IH (S k)). destruct (first_incomplete (S k) qs) as [j|].
      * destruct IH as (i & q0 & -> & H1 & H2 & H3).
        exists (S i), q0. repeat split; [lia|assumption|assumption|].
        intros [|i'] q' Hlt Hq'; simpl in Hq'.
        -- now injection Hq' as <-.
        -- apply (H3 i' q'); [lia|assumption].
      * intros [|i] q0 Hq0; simpl in Hq0.
        -- now injection Hq0 as <-.
        -- now apply (IH i q0).
Qed.

(** X9. A form that fails a check of [handleSave] is refused before
    any request is sent: whatever the store would answer, no table
    changes, nothing is navigated to and one error toast is shown.  The
    checks come in this order: a title that is empty or white space
    only, an empty list of questions, and otherwise the first question
    with a field that is empty or white space only, named by its
    position counted from 1.  A form that passes has a title, at least
    one question and no such field. *)
Theorem invalid_form_is_refused (ed : Editor) :
  (forall message st d,
      validate ed = Some message ->
      handleSave st ed d
      = {| db_after := d; toasts := [error message]; navigated := [] |})
  /\ (blank (title (exam ed)) = true ->
      validate ed = Some "Please enter an exam title"%string)
  /\ (blank (title (exam ed)) = false -> editor_questions ed = [] ->
      validate ed = Some "Please add at least one question"%string)
  /\ (forall i q,
        blank (title (exam ed)) = false ->
        editor_questions ed !! i = Some q -> incomplete q = true ->
        (forall i' q', (i' < i)%nat -> editor_questions ed !! i' = Some q' ->
                       incomplete q' = false) ->
        validate ed
        = Some ("Please fill in all fields for question " +:+ pretty (S i)))
  /\ (validate ed = None ->
      blank (title (exam ed)) = false /\ editor_questions ed <> []
      /\ forall i q, editor_questions ed !! i = Some q -> incomplete q = false).
Proof.
  split; [|split; [|split; [|split]]].
  - intros message st d H. unfold handleSave. now rewrite H.
  - intros H. unfold validate. now rewrite H.
  - intros H Hq. unfold validate. rewrite H, Hq. reflexivity.
  - intros i q Ht Hq Hi Hbefore. unfold validate. rewrite Ht.
    rewrite bool_decide_eq_false_2
      by (intros E; rewrite E, lookup_nil in Hq; discriminate).
    pose proof (first_incomplete_spec (editor_questions ed) 0) as S.
    destruct (first_incomplete 0 (editor_questions ed)) as [j|].
    + destruct S as (i0 & q0 & -> & H1 & H2 & H3). simpl.
      destruct (Nat.lt_trichotomy i0 i) as [L|[->|L]]; [|reflexivity|].
      * rewrite (Hbefore i0 q0 L H1) in H2. discriminate.
      * rewrite (H3 i q L Hq) in Hi. discriminate.
    + rewrite (S i q Hq) in Hi. discriminate.
  - unfold validate. destruct (blank (title (exam ed))); [discriminate|].
    destruct (bool_decide (editor_questions ed = [])) eqn:E; [discriminate|].
    apply bool_decide_eq_false in E.
    pose proof (first_incomplete_spec (editor_questions ed) 0) as S.
    destruct (first_incomplete 0 (editor_questions ed)); [discriminate|].
    auto.
Qed.

(** A title of Unicode spaces is refused; so is the form whose third
    and fourth questions are incomplete, with the third named. *)
Lemma invalid_form_is_refused_witness :
  handleSave accepting untitled stored
  = {| db_after := stored; toasts := [error "Please enter an exam title"];
       navigated := [] |}
  /\ handleSave accepting third_incomplete stored
     = {| db_after := stored;
          toasts := [error "Please fill in all fields for question 3"];
          navigated := [] |}.
Proof.
  split.
  - destruct (invalid_form_is_refused untitled) as (H & Ht & _).
    apply H. apply Ht. vm_compute. reflexivity.
  - destruct (invalid_form_is_refused third_incomplete) as (H & _ & _ & Hq & _).
    apply H.
    rewrite (Hq 2%nat _ ltac:(vm_compute; reflexivity) eq_refl
                ltac:(vm_compute; reflexivity)).
    + vm_compute. reflexivity.
    + intros [|[|i']] q' Hlt Hq'; simpl in Hq';
        [injection Hq' as <-; vm_compute; reflexivity
        |injection Hq' as <-; vm_compute; reflexivity|lia].
Defined.



End ExamEditorFacts.

(** ** Sign-up *)

Module AuthFacts.
Import Auth AuthScenarios.

(** When the check sees an admin row, sign-up as admin stops there:
    the error, and the backend as it was. *)
Lemma signUp_stops_on_visible_admin email password fullName idp current b :
  existingAdmin b <> [] ->
  signUp email password fullName admin idp current b
  = {| backend := b; error := Some admin_exists; role := current |}.
Proof.
  intros H. unfold signUp.
  destruct (existingAdmin b) as [|r rs]; [congruence|]. reflexivity.
Qed.

Lemma has_role_nobody (b : Backend) (r : app_role) : has_role b None r = false.
Proof.
  unfold has_role. apply not_true_iff_false. rewrite existsb_exists.
  intros (x & _ & H). apply andb_true_iff in H as [H _].
  apply bool_decide_eq_true in H. discriminate.
Qed.

Lemma filter_nothing {A} (f : A -> bool) (l : list A) :
  (forall x, f x = false) -> List.filter f l = [].
Proof.
  intros H. induction l as [|x l IH]; [reflexivity|]. simpl. now rewrite H.
Qed.

(** A caller who is not signed in is shown no row of [user_roles]. *)
Lemma anonymous_sees_no_admin (b : Backend) :
  uid b = None -> existingAdmin b = [].
Proof.
  intros H. unfold existingAdmin. rewrite filter_nothing; [reflexivity|].
  intros r. unfold can_select. rewrite H, has_role_nobody.
  now rewrite bool_decide_eq_false_2.
Qed.

(** So a visitor's sign-up as admin goes ahead whether or not an admin
    exists: the account is created and the admin role stored. *)
Lemma anonymous_signUp_goes_ahead email password fullName id current b :
  uid b = None ->
  (forall r, In r (user_roles b) -> UserRole.user_id r <> id) ->
  let res := signUp email password fullName admin (AuthUser id true) current b in
  error res = None
  /\ users (backend res) = users b ++ [(id, email)]
  /\ user_roles (backend res)
     = user_roles b ++ [{| UserRole.user_id := id; UserRole.role := admin |}].
Proof.
  intros H Hfresh. cbv zeta. unfold signUp.
  rewrite (anonymous_sees_no_admin b H). simpl.
  unfold can_insert. simpl.
  rewrite bool_decide_eq_true_2 by reflexivity. simpl.
  replace (existsb _ (user_roles b)) with false; [simpl; auto|].
  symmetry. apply not_true_iff_false. rewrite existsb_exists.
  intros (x & Hx & Hb). apply andb_true_iff in Hb as [Hb _].
  apply bool_decide_eq_true in Hb. now apply (Hfresh x Hx).
Qed.

(** C7 fails on the code.  An admin exists and a visitor, not signed
    in, signs up as admin.  The policies on [user_roles] show the
    visitor no row, so the check finds no admin and the sign-up goes
    ahead: with a session the account, its profile and a second admin
    role are written and no error is returned; without one (e-mail
    confirmation pending) the account and profile are written and the
    error is that of the rejected role insert.  Only a caller who can
    see the admin row, the admin, gets the refusal. *)
Theorem visitor_signs_up_as_second_admin :
  has_admin one_admin = true
  /\ existingAdmin one_admin = []
  /\ (let r := signUp "eve@example.org" "secret" "Eve" admin
                  (AuthUser "u2" true) None one_admin in
      error r = None
      /\ role r = Some admin
      /\ users (backend r)
         = [("u1", "root@example.org"); ("u2", "eve@example.org")]%string
      /\ user_roles (backend r)
         = [{| UserRole.user_id := "u1"; UserRole.role := admin |};
            {| UserRole.user_id := "u2"; UserRole.role := admin |}])
  /\ (let r := signUp "eve@example.org" "secret" "Eve" admin
                  (AuthUser "u2" false) None one_admin in
      error r = Some RoleError
      /\ users (backend r)
         = [("u1", "root@example.org"); ("u2", "eve@example.org")]%string
      /\ length (profiles (backend r)) = 2%nat)
  /\ (let r := signUp "eve@example.org" "secret" "Eve" admin
                  (AuthUser "u2" true) None as_admin in
      error r = Some admin_exists /\ backend r = as_admin).
Proof. vm_compute. repeat split; congruence. Qed.

(** *** What sign-up writes *)

Ltac nothing_added :=
  exists [], [], []; rewrite !app_nil_r; simpl;
  do 3 (split; [reflexivity|]); split; [lia|]; split; [reflexivity|];
  split; [lia|]; intros x [].

(** X11. [signUp] only adds.  Whatever the provider answers and
    whoever calls, the accounts, profiles and role rows that existed
    are all still there, in place; at most one account is added, with
    its profile, and at most one role row, which belongs to the
    account just created and carries the role asked for.  When the
    provider answers with an error or without a user, nothing is
    written.  The call returns no error with a user only after the role
    row was written, and then the [role] state is the role asked for;
    short of that the [role] state is left as it was. *)
Theorem signUp_only_adds (email password fullName : string) (userRole : app_role)
        (idp : AuthResponse) (current : option app_role) (b : Backend) :
  let r := signUp email password fullName userRole idp current b in
  (exists us ps rs,
      users (backend r) = users b ++ us
      /\ profiles (backend r) = profiles b ++ ps
      /\ user_roles (backend r) = user_roles b ++ rs
      /\ (length us <= 1)%nat /\ length ps = length us
      /\ (length rs <= length us)%nat
      /\ forall x, In x rs ->
           UserRole.role x = userRole
           /\ map fst us = [UserRole.user_id x]
           /\ exists session, idp = AuthUser (UserRole.user_id x) session)
  /\ ((forall id session, idp <> AuthUser id session) ->
      backend r = b /\ role r = current)
  /\ (forall id session,
        idp = AuthUser id session -> error r = None ->
        role r = Some userRole
        /\ user_roles (backend r)
           = user_roles b
             ++ [{| UserRole.user_id := id; UserRole.role := userRole |}])
  /\ (error r <> None -> role r = current /\ user_roles (backend r) = user_roles b).
Proof.
  cbv zeta. unfold signUp.
  destruct (bool_decide (userRole = admin) && (0 <? length (existingAdmin b))%nat).
  { simpl. split; [|split; [|split]].
    - nothing_added.
    - auto.
    - intros id session _ H. discriminate.
    - auto. }
  destruct idp as [message|id session|].
  - simpl. split; [|split; [|split]].
    + nothing_added.
    + auto.
    + intros id session H. discriminate.
    + auto.
  - destruct (can_insert _ _); simpl; (split; [|split; [|split]]).
    + exists [(id, email)],
             [{| Profile.user_id := id; Profile.email := email;
                 Profile.full_name := fullName |}],
             [{| UserRole.user_id := id; UserRole.role := userRole |}].
      simpl. do 3 (split; [reflexivity|]). split; [lia|].
      split; [reflexivity|]. split; [lia|].
      intros x [<-|[]]. simpl. eauto.
    + intros H. now destruct (H id session).
    + intros id' session' [= <- <-] _. auto.
    + intros H. now destruct H.
    + exists [(id, email)],
             [{| Profile.user_id := id; Profile.email := email;
                 Profile.full_name := fullName |}], [].
      rewrite app_nil_r. simpl. do 3 (split; [reflexivity|]). split; [lia|].
      split; [reflexivity|]. split; [lia|]. intros x [].
    + intros H. now destruct (H id session).
    + intros id' session' _ H. discriminate.
    + auto.
  - simpl. split; [|split; [|split]].
    + nothing_added.
    + auto.
    + intros id session H. discriminate.
    + intros H. now destruct H.
Qed.
(** A student signs up beside the admin: one role row more, for the
    new account. *)
Lemma signUp_only_adds_witness :
  let r := signUp "ann@example.org" "secret" "Ann" student
                  (AuthUser "u2" true) None one_admin in
  role r = Some student
  /\ user_roles (backend r)
     = user_roles one_admin
       ++ [{| UserRole.user_id := "u2"; UserRole.role := student |}].
Proof.
  destruct (signUp_only_adds "ann@example.org" "secret" "Ann" student
              (AuthUser "u2" true) None one_admin) as (_ & _ & H & _).
  apply (H "u2"%string true); reflexivity.
Defined.

End AuthFacts.
